(** * Ambiguity classifier: the word scorer, the batch classifier and the
    evaluator of [ambiguity_simple], embedded in Rocq.

    The embedding follows [classifier.py] and [evaluation.py] line by line.

    - A Python [str] is the list of its Unicode code points; [<] on strings
      and on tuples is the lexicographic order of stdpp's [lexico].
    - A Python [set] is a [gset], a [dict] a [gmap].
    - The module-level lexicon caches are an explicit state ([Cache]) threaded
      by a state monad; the package data files are an environment.
    - [ValueError] is a result type; the raising statements return [Raise].
    - The scorer's [float] is IEEE binary64 ([PrimFloat]), operation for
      operation.  The evaluator's metrics, which are ratios of set sizes, are
      exact rationals ([Q]): the value the Python float rounds.
    - What Python's Unicode tables decide ([str.lower], [str.islower],
      [str.isupper]), the optional [wordfreq] provider and the [.2f] rendering
      of a float are interfaces ([Builtins], [Wordfreq]); every theorem holds
      for all their implementations, and an ASCII one is given to run the
      code on concrete words. *)

From Stdlib Require Import PrimFloat Uint63 ZArith QArith Qminmax Lqa Lia.
From Stdlib Require Import String Ascii DecimalString.
From stdpp Require Import base option list gmap sets lexico sorting.

(* 0.9, 0.04 and 0.05 are rounded to binary64 here as they are by Python. *)
Set Warnings "-inexact-float,-clear-no-such-hyp".

(** ** Python strings *)

Definition char : Type := N.
Definition str : Type := list char.

(** An ASCII literal as a [str]. *)
Definition py (s : string) : str := N_of_ascii <$> list_ascii_of_string s.

(** [str.isspace] on one code point: the characters [str.strip()] removes. *)
Definition isspace (c : char) : bool :=
  ((9 <=? c) && (c <=? 13) || (28 <=? c) && (c <=? 32)
   || (c =? 133) || (c =? 160) || (c =? 5760)
   || (8192 <=? c) && (c <=? 8202)
   || (c =? 8232) || (c =? 8233) || (c =? 8239) || (c =? 8287)
   || (c =? 12288))%N.

Fixpoint lstrip (s : str) : str :=
  match s with
  | [] => []
  | c :: s' => if isspace c then lstrip s' else s
  end.

Definition rstrip (s : str) : str := reverse (lstrip (reverse s)).

(** [s.strip()] *)
Definition strip (s : str) : str := rstrip (lstrip s).

(** [bool(s)] for a string: non-empty. *)
Definition nonempty (s : str) : bool := negb (bool_decide (s = [])).

(** [sep.join(parts)] *)
Fixpoint join (sep : str) (parts : list str) : str :=
  match parts with
  | [] => []
  | [p] => p
  | p :: ps => p ++ sep ++ join sep ps
  end.

(** [str(n)] for an integer. *)
Definition str_of_int (n : Z) : str := py (NilEmpty.string_of_int (Z.to_int n)).

(** [x <= y] for values Python orders lexicographically. *)
Definition py_le {A} `{Lexico A} (x y : A) : Prop := lexico x y ∨ x = y.

#[export] Instance py_le_dec {A} `{Lexico A} `{!RelDecision (@lexico A _)}
  `{!EqDecision A} : RelDecision (@py_le A _).
Proof. intros x y. unfold py_le. apply _. Defined.

(** [sorted(l, key=key)]: the ordered permutation of [l]. *)
Definition sorted_by {A K} `{Lexico K} `{!RelDecision (@lexico K _)}
  `{!EqDecision K} (key : A → K) (l : list A) : list A :=
  merge_sort (λ x y, py_le (key x) (key y)) l.

(** [sorted(l)] *)
Definition sorted (l : list str) : list str := sorted_by id l.

(** [list(dict.fromkeys(l))]: the keys of [l] in order of first occurrence. *)
Definition dict_fromkeys (l : list str) : list str :=
  foldl (λ keys k, if bool_decide (k ∈ keys) then keys else keys ++ [k]) [] l.

(** [{line.strip() for line in handle if line.strip()}] *)
Definition stripped_set (handle : list str) : gset str :=
  list_to_set (strip <$> filter (λ line, nonempty (strip line)) handle).

(** [[line.strip() for line in handle if line.strip()]] *)
Definition stripped_list (handle : list str) : list str :=
  strip <$> filter (λ line, nonempty (strip line)) handle.

(** ** The environment: Python builtins, wordfreq, package data *)

(** The case tables of Python's Unicode database. *)
Class Builtins := {
  str_lower : str → str;       (* s.lower() *)
  str_islower : str → bool;    (* s.islower() *)
  chr_isupper : char → bool;   (* c.isupper() for a one-character string *)
}.

(** The optional [wordfreq] dependency ([_WORDFREQ_AVAILABLE] is false when
    the environment switch is off or the import fails) and the rendering
    [f"{zipf:.2f}"], which is only reached when it is available. *)
Class Wordfreq := {
  _WORDFREQ_AVAILABLE : bool;
  zipf_frequency : str → str → float;
  format_2f : float → str;
}.

(** The lines of [data/common.txt] and, when the file exists, of
    [data/proper.txt]. *)
Class Package := {
  common_txt : list str;
  proper_txt : option (list str);
}.

(** ** classifier.py *)

Definition _COMMON_MEMBERSHIP : float := 5.0%float.
Definition _PROPER_MEMBERSHIP : float := (-4.0)%float.
Definition _ZIPF_MULTIPLIER : float := 0.9%float.
Definition _ZIPF_BIAS : float := (-4.0)%float.
Definition _WORD_LENGTH_NEUTRAL : Z := 7.
Definition _WORD_LENGTH_MULTIPLIER : float := 0.04%float.
Definition _HAS_COMMON_SUFFIX : float := 0.0%float.
Definition _CAPITALIZATION_PENALTY : float := 0.0%float.
Definition _CAPITALIZATION_ZIPF_LOW : float := 2.0%float.
Definition _CAPITALIZATION_ZIPF_RANGE : float := 4.0%float.
Definition _COMMON_THRESHOLD : float := 0.05%float.
Definition _NOT_THRESHOLD : float := (-40.0)%float.

(** [bool(x)] for a float: any value but zero. *)
Definition float_truthy (x : float) : bool := negb (PrimFloat.eqb x 0%float).

(** [float(n)] for an integer below [2^63] in absolute value. *)
Definition float_of_int (n : Z) : float :=
  if (n <? 0)%Z then PrimFloat.opp (PrimFloat.of_uint63 (Uint63.of_Z (- n)))
  else PrimFloat.of_uint63 (Uint63.of_Z n).

(** [max(a, b)] and [min(a, b)] on floats: the first argument unless the
    second is strictly beyond it. *)
Definition float_max (a b : float) : float := if PrimFloat.ltb a b then b else a.
Definition float_min (a b : float) : float := if PrimFloat.ltb b a then b else a.

Record ClassificationResult := {
  word : str;
  label : str;
  score : float;
  reason : str;
}.

(** The four module-level caches; [None] before the first load. *)
Record Cache := {
  _common_cache : option (gset str);
  _common_lower_cache : option (gset str);
  _proper_cache : option (gset str);
  _proper_lower_cache : option (gset str);
}.

(** The caches at import time. *)
Definition fresh_cache : Cache := Build_Cache None None None None.

(** Computations that read and assign the module globals. *)
Definition M (A : Type) : Type := Cache → A * Cache.

#[export] Instance M_ret : MRet M := λ A a c, (a, c).
#[export] Instance M_bind : MBind M :=
  λ A B f m c, let '(a, c') := m c in f a c'.

Definition read {A} (global : Cache → A) : M A := λ c, (global c, c).
Definition assign (update : Cache → Cache) : M unit := λ c, (tt, update c).

Definition set_common_cache (v : gset str) (c : Cache) : Cache :=
  Build_Cache (Some v) (_common_lower_cache c) (_proper_cache c)
    (_proper_lower_cache c).
Definition set_common_lower_cache (v : gset str) (c : Cache) : Cache :=
  Build_Cache (_common_cache c) (Some v) (_proper_cache c)
    (_proper_lower_cache c).
Definition set_proper_cache (v : gset str) (c : Cache) : Cache :=
  Build_Cache (_common_cache c) (_common_lower_cache c) (Some v)
    (_proper_lower_cache c).
Definition set_proper_lower_cache (v : gset str) (c : Cache) : Cache :=
  Build_Cache (_common_cache c) (_common_lower_cache c) (_proper_cache c)
    (Some v).

Section classifier.
Context `{Builtins} `{Wordfreq} `{Package}.

Definition _load_common_words : M (gset str) :=
  cached ← read _common_cache;
  match cached with
  | None =>
      let loaded := stripped_set common_txt in
      _ ← assign (set_common_cache loaded);
      mret loaded
  | Some members => mret members
  end.

Definition _load_common_lower : M (gset str) :=
  cached ← read _common_lower_cache;
  match cached with
  | None =>
      commons ← _load_common_words;
      let lowered : gset str := set_map str_lower commons in
      _ ← assign (set_common_lower_cache lowered);
      mret lowered
  | Some members => mret members
  end.

Definition _load_proper_words : M (gset str) :=
  cached ← read _proper_cache;
  match cached with
  | None =>
      let members : gset str :=
        match proper_txt with
        | Some handle => stripped_set handle
        | None => ∅
        end in
      _ ← assign (set_proper_cache members);
      mret members
  | Some members => mret members
  end.

Definition _load_proper_lower : M (gset str) :=
  cached ← read _proper_lower_cache;
  match cached with
  | None =>
      propers ← _load_proper_words;
      let lowered : gset str := set_map str_lower propers in
      _ ← assign (set_proper_lower_cache lowered);
      mret lowered
  | Some members => mret members
  end.

Definition _zipf (w : str) : float :=
  if negb _WORDFREQ_AVAILABLE then 0.0%float
  else zipf_frequency w (py "en").

(** The lexicon bonus of [classify_word]: [word in commons or
    (word.islower() and lower in commons_lower)]. *)
Definition common_member (commons commons_lower : gset str) (w : str) : bool :=
  bool_decide (w ∈ commons)
  || (str_islower w && bool_decide (str_lower w ∈ commons_lower)).

(** The running [score] of [classify_word] for a non-empty trimmed word,
    given the four loaded sets: lexicon bonus and penalty, frequency term,
    length term and (when the penalty constant is not zero) capitalisation
    term, in the order of the source. *)
Definition word_score (commons commons_lower propers propers_lower : gset str)
    (w : str) : float :=
  let lower := str_lower w in
  let score := 0.0%float in
  (* if word in commons or (word.islower() and lower in commons_lower) *)
  let score :=
    if common_member commons commons_lower w
    then (score + _COMMON_MEMBERSHIP)%float else score in
  (* if propers and word in propers: ... elif propers_lower and ... *)
  let score :=
    if bool_decide (propers ≠ ∅) && bool_decide (w ∈ propers)
    then (score + _PROPER_MEMBERSHIP)%float
    else if bool_decide (propers_lower ≠ ∅) && str_islower w
            && bool_decide (lower ∈ propers_lower)
    then (score + _PROPER_MEMBERSHIP)%float
    else score in
  let zipf := _zipf lower in
  let score := (score + _ZIPF_MULTIPLIER * (zipf + _ZIPF_BIAS))%float in
  let length_delta := (Z.of_nat (length w) - _WORD_LENGTH_NEUTRAL)%Z in
  let score :=
    (score - _WORD_LENGTH_MULTIPLIER * float_of_int length_delta)%float in
  (* if _CAPITALIZATION_PENALTY and word and word[0].isupper() *)
  if float_truthy _CAPITALIZATION_PENALTY && nonempty w
     && from_option chr_isupper false (head w)
  then
    let freq_factor := 0.0%float in
    let freq_factor :=
      if _WORDFREQ_AVAILABLE
      then float_max 0.0
             (float_min 1.0
                ((zipf - _CAPITALIZATION_ZIPF_LOW) / _CAPITALIZATION_ZIPF_RANGE))
      else freq_factor in
    (score - _CAPITALIZATION_PENALTY * freq_factor)%float
  else score.

(** The decision rule at the end of [classify_word]: the label by the
    primary threshold, then the override at or below [_NOT_THRESHOLD]. *)
Definition decide_label (score : float) : str :=
  let label :=
    if PrimFloat.leb _COMMON_THRESHOLD score
    then py "likely ambiguous" else py "likely non-ambiguous" in
  if PrimFloat.leb score _NOT_THRESHOLD then py "likely non-ambiguous"
  else label.

(** The diagnostic string: [";".join(reason_bits)]. *)
Definition word_reason (w : str) : str :=
  let length_delta := (Z.of_nat (length w) - _WORD_LENGTH_NEUTRAL)%Z in
  join (py ";")
    [ if _WORDFREQ_AVAILABLE
      then py "zipf=" ++ format_2f (_zipf (str_lower w)) else py "zipf=n/a";
      py "len" ++ [916%N] ++ py "=" ++ str_of_int length_delta ].

(** [classify_word]: the empty word returns before any lexicon is loaded;
    otherwise the four sets are loaded, then the score, the label and the
    reason are computed ([word_score], [decide_label], [word_reason]). *)
Definition classify_word (raw : str) : M ClassificationResult :=
  let w := strip raw in
  if negb (nonempty w)
  then mret (Build_ClassificationResult w (py "unknown") 0.0 (py "empty"))
  else
    commons ← _load_common_words;
    commons_lower ← _load_common_lower;
    propers ← _load_proper_words;
    propers_lower ← _load_proper_lower;
    let score := word_score commons commons_lower propers propers_lower w in
    mret (Build_ClassificationResult w (decide_label score) score
            (word_reason w)).

(** The two lexicon facts [classify_words] derives for a scored word. *)
Definition treat_as_common (commons commons_lower : gset str)
    (res : ClassificationResult) : bool :=
  bool_decide (label res = py "likely ambiguous")
  || bool_decide (word res ∈ commons)
  || (str_islower (word res)
      && bool_decide (str_lower (word res) ∈ commons_lower)).

Definition treat_as_proper (propers propers_lower : gset str)
    (res : ClassificationResult) : bool :=
  bool_decide (word res ∈ propers)
  || (str_islower (word res)
      && bool_decide (str_lower (word res) ∈ propers_lower)).

(** The [for raw in words] loop, with the two lists built so far. *)
Fixpoint classify_loop (commons commons_lower propers propers_lower : gset str)
    (words : list str) (ambiguous proper : list str)
    : M (list str * list str) :=
  match words with
  | [] => mret (ambiguous, proper)
  | raw :: words =>
      res ← classify_word raw;
      if bool_decide (word res = []) || bool_decide (label res = py "unknown")
      then classify_loop commons commons_lower propers propers_lower
             words ambiguous proper
      else if treat_as_common commons commons_lower res
              && negb (treat_as_proper propers propers_lower res)
      then classify_loop commons commons_lower propers propers_lower
             words (ambiguous ++ [word res]) proper
      else classify_loop commons commons_lower propers propers_lower
             words ambiguous (proper ++ [word res])
  end.

Definition classify_words (words : list str) : M (list str * list str) :=
  commons ← _load_common_words;
  commons_lower ← _load_common_lower;
  propers ← _load_proper_words;
  propers_lower ← _load_proper_lower;
  classify_loop commons commons_lower propers propers_lower words [] [].

(** [classify_file]: from the lines of the input file to the words written,
    one per line, to the two output files. *)
Definition classify_file (reader : list str) : M (list str * list str) :=
  let words := stripped_list reader in
  '(ambiguous, proper) ← classify_words words;
  mret (sorted (dict_fromkeys ambiguous), sorted (dict_fromkeys proper)).

End classifier.

(** ** evaluation.py *)

(** [Label = str] *)
Abbreviation Label := str (only parsing).

Record EvaluationReport := {
  total_words : nat;
  total_common : nat;
  total_proper : nat;
  predicted_common : nat;
  predicted_proper : nat;
  true_positive : nat;
  true_negative : nat;
  false_positive : nat;
  false_negative : nat;
  accuracy : Q;
  precision : option Q;
  recall : option Q;
  f1 : option Q;
  missing_words : list str;
  false_positive_words : list str;
  false_negative_words : list str;
  extra_common_predictions : list str;
  extra_proper_predictions : list str;
}.

(** The [ValueError]s the evaluator raises, by the data their message holds. *)
Inductive ValueError :=
  | MissingColumns
  | UnrecognisedLabel (label : str)
  | ConflictingLabels (word : str) (existing truth : Label)
  | OverlappingPredictions (count : nat) (overlap_preview : str).

(** The message of each error, as the f-strings build it. *)
Definition message (e : ValueError) : str :=
  match e with
  | MissingColumns =>
      py "Gold standard file must contain 'Word' and 'Truth' columns separated by tabs."
  | UnrecognisedLabel label =>
      py "Unrecognised label '" ++ label ++ py "'. Expected 'Common' or 'Proper'."
  | ConflictingLabels word existing truth =>
      py "Conflicting labels detected for word '" ++ word ++ py "': '"
      ++ existing ++ py "' vs '" ++ truth ++ py "'."
  | OverlappingPredictions count overlap_preview =>
      py "Found " ++ str_of_int (Z.of_nat count)
      ++ py " words present in both prediction files; examples: "
      ++ overlap_preview ++ py "."
  end.

Inductive result (A : Type) :=
  | OK (a : A)
  | Raise (e : ValueError).
Arguments OK {A} a.
Arguments Raise {A} e.

#[export] Instance result_ret : MRet result := λ A a, OK a.
#[export] Instance result_bind : MBind result :=
  λ A B f m, match m with OK a => f a | Raise e => Raise e end.

(** The gold TSV as [csv.DictReader] presents it: the header row, absent for
    an empty file, and one dictionary per data row ([row.get(k)] is
    [row !! k]; a column the row lacks has no entry). *)
Record GoldFile := {
  fieldnames : option (list str);
  rows : list (gmap str str);
}.

(** [a / b] on two sizes, as the exact quotient. *)
Definition truediv (a b : nat) : Q :=
  (inject_Z (Z.of_nat a) / inject_Z (Z.of_nat b))%Q.

Section evaluation.
Context `{Builtins}.

Definition _normalise_truth (label : str) : result Label :=
  let lowered := str_lower (strip label) in
  if bool_decide (lowered ∈ [py "common"; py "ambiguous"; py "ambiguous noun"])
  then OK (py "common")
  else if bool_decide (lowered ∈ [py "proper"; py "proper noun"])
  then OK (py "proper")
  else Raise (UnrecognisedLabel label).

(** The [for row in reader] loop of [_load_gold_labels]. *)
Fixpoint gold_rows (reader : list (gmap str str)) (labels : gmap str Label)
    : result (gmap str Label) :=
  match reader with
  | [] => OK labels
  | row :: reader =>
      let word := strip (default [] (row !! py "Word")) in
      if negb (nonempty word) then gold_rows reader labels
      else
        let truth_raw := strip (default [] (row !! py "Truth")) in
        truth ← _normalise_truth truth_raw;
        match labels !! word with
        | Some existing =>
            if bool_decide (existing ≠ truth)
            then Raise (ConflictingLabels word existing truth)
            else gold_rows reader (<[word := truth]> labels)
        | None => gold_rows reader (<[word := truth]> labels)
        end
  end.

Definition _load_gold_labels (gold : GoldFile) : result (gmap str Label) :=
  match fieldnames gold with
  | None => Raise MissingColumns
  | Some names =>
      if bool_decide
           (({[py "Word"; py "Truth"]} : gset str) ∖ list_to_set names ≠ ∅)
      then Raise MissingColumns
      else gold_rows (rows gold) ∅
  end.

Definition _load_prediction_words (handle : list str) : gset str :=
  stripped_set handle.

(** The sort key of [_sort_words]: [(item.lower(), item)]. *)
Definition sort_key (item : str) : str * str := (str_lower item, item).

Definition _sort_words (words : gset str) : list str :=
  sorted_by sort_key (elements words).

Definition evaluate_against_gold (gold_standard : GoldFile)
    (ambiguous_predictions proper_predictions : list str)
    : result EvaluationReport :=
  gold_labels ← _load_gold_labels gold_standard;
  let gold_words : gset str := dom gold_labels in
  let gold_common : gset str :=
    dom (filter (λ item, item.2 = py "common") gold_labels) in
  let gold_proper := gold_words ∖ gold_common in
  let predicted_common_all := _load_prediction_words ambiguous_predictions in
  let predicted_proper_all := _load_prediction_words proper_predictions in
  let extra_common_predictions := predicted_common_all ∖ gold_words in
  let extra_proper_predictions := predicted_proper_all ∖ gold_words in
  let predicted_common := predicted_common_all ∩ gold_words in
  let predicted_proper := predicted_proper_all ∩ gold_words in
  let overlapping_predictions := predicted_common ∩ predicted_proper in
  if bool_decide (overlapping_predictions ≠ ∅)
  then
    let overlap_preview :=
      join (py ", ") (take 5 (sorted (elements overlapping_predictions))) in
    Raise (OverlappingPredictions (size overlapping_predictions) overlap_preview)
  else
    let missing_words := gold_words ∖ (predicted_common ∪ predicted_proper) in
    let true_positive_words := gold_common ∩ predicted_common in
    let false_negative_words := gold_common ∖ predicted_common in
    let false_positive_words := predicted_common ∩ gold_proper in
    let true_negative_words := gold_proper ∩ predicted_proper in
    let total_words := size gold_words in
    let total_common := size gold_common in
    let total_proper := size gold_proper in
    let predicted_common_count := size predicted_common in
    let predicted_proper_count := size predicted_proper in
    let true_positive := size true_positive_words in
    let true_negative := size true_negative_words in
    let false_positive := size false_positive_words in
    let false_negative := size false_negative_words in
    let accuracy :=
      if bool_decide (total_words ≠ 0)
      then truediv (true_positive + true_negative) total_words else 0%Q in
    let precision :=
      if bool_decide (true_positive + false_positive ≠ 0)
      then Some (truediv true_positive (true_positive + false_positive))
      else None in
    let recall :=
      if bool_decide (true_positive + false_negative ≠ 0)
      then Some (truediv true_positive (true_positive + false_negative))
      else None in
    let f1 :=
      match precision, recall with
      | Some p, Some r =>
          if negb (Qeq_bool (p + r) 0)
          then Some (2 * p * r / (p + r))%Q else None
      | _, _ => None
      end in
    OK {| total_words := total_words;
          total_common := total_common;
          total_proper := total_proper;
          predicted_common := predicted_common_count;
          predicted_proper := predicted_proper_count;
          true_positive := true_positive;
          true_negative := true_negative;
          false_positive := false_positive;
          false_negative := false_negative;
          accuracy := accuracy;
          precision := precision;
          recall := recall;
          f1 := f1;
          missing_words := _sort_words missing_words;
          false_positive_words := _sort_words false_positive_words;
          false_negative_words := _sort_words false_negative_words;
          extra_common_predictions := _sort_words extra_common_predictions;
          extra_proper_predictions := _sort_words extra_proper_predictions |}.

End evaluation.

(** ** A concrete environment

    On words made of ASCII characters Python's case tables are the ones
    below; they are used to run the code on examples. *)

Definition ascii_upper_letter (c : char) : bool := ((65 <=? c) && (c <=? 90))%N.
Definition ascii_lower_letter (c : char) : bool := ((97 <=? c) && (c <=? 122))%N.

Definition ascii_builtins : Builtins := {|
  str_lower s := (λ c, if ascii_upper_letter c then (c + 32)%N else c) <$> s;
  str_islower s :=
    existsb ascii_lower_letter s && forallb (λ c, negb (ascii_upper_letter c)) s;
  chr_isupper := ascii_upper_letter;
|}.

(** [AMBICLASS_USE_WORDFREQ] unset: no provider is imported, and neither
    [zipf_frequency] nor the float rendering is reached. *)
Definition wordfreq_off : Wordfreq := {|
  _WORDFREQ_AVAILABLE := false;
  zipf_frequency _ _ := 0.0%float;
  format_2f _ := [];
|}.

(** A small lexicon: three common words, two proper names. *)
Definition sample_package : Package := {|
  common_txt := [py "bank" ++ [10%N]; [10%N]; py " dog " ++ [10%N]; py "march"];
  proper_txt := Some [py "Paris" ++ [10%N]; py "march" ++ [10%N]];
|}.

(** A gold file with the required header. *)
Definition gold_file (entries : list (str * str)) : GoldFile := {|
  fieldnames := Some [py "Word"; py "Truth"];
  rows := (λ e, {[py "Word" := e.1; py "Truth" := e.2]}) <$> entries;
|}.

(** A gold file of four words, two of each label. *)
Definition gold_four : GoldFile :=
  gold_file [(py "bank", py "Common"); (py "Paris", py "proper noun");
             (py "dog", py "ambiguous"); (py "Rome", py "Proper")].

(** The mapping [_load_gold_labels] builds from it. *)
Definition labels_four : gmap str str :=
  list_to_map [(py "bank", py "common"); (py "Paris", py "proper");
               (py "dog", py "common"); (py "Rome", py "proper")].

(** ** What a call sees of the caches

    The loaders fill a cache on first use and return it afterwards, so the
    four sets a call works with, and the caches it leaves, are functions of
    the caches it starts from. *)

Record Lexicon := {
  commons : gset str;
  commons_lower : gset str;
  propers : gset str;
  propers_lower : gset str;
}.

Section lexicon.
Context `{Builtins} `{Wordfreq} `{Package}.

(** The sets the four loaders return, called in the order of
    [classify_words], from the caches [c]. *)
Definition lexicon_of (c : Cache) : Lexicon :=
  let commons := default (stripped_set common_txt) (_common_cache c) in
  let propers :=
    default (from_option stripped_set ∅ proper_txt) (_proper_cache c) in
  {| commons := commons;
     commons_lower :=
       default (set_map str_lower commons) (_common_lower_cache c);
     propers := propers;
     propers_lower :=
       default (set_map str_lower propers) (_proper_lower_cache c) |}.

(** The caches once the four loaders have run. *)
Definition loaded (c : Cache) : Cache :=
  let lex := lexicon_of c in
  Build_Cache (Some (commons lex)) (Some (commons_lower lex))
    (Some (propers lex)) (Some (propers_lower lex)).

(** The lexicon of the package data: what a fresh process loads. *)
Definition package_lexicon : Lexicon := lexicon_of fresh_cache.

(** Caches as the loaders leave them: each one empty or holding the set
    loaded from the package data. *)
Definition cache_ok (c : Cache) : Prop :=
  (_common_cache c = None ∨ _common_cache c = Some (commons package_lexicon))
  ∧ (_common_lower_cache c = None
     ∨ _common_lower_cache c = Some (commons_lower package_lexicon))
  ∧ (_proper_cache c = None
     ∨ _proper_cache c = Some (propers package_lexicon))
  ∧ (_proper_lower_cache c = None
     ∨ _proper_lower_cache c = Some (propers_lower package_lexicon)).

(** The result [classify_word] builds for a non-empty trimmed word. *)
Definition scored (lex : Lexicon) (w : str) : ClassificationResult :=
  let score :=
    word_score (commons lex) (commons_lower lex) (propers lex)
      (propers_lower lex) w in
  Build_ClassificationResult w (decide_label score) score (word_reason w).

(** The bucket test of [classify_words] on a non-empty trimmed word. *)
Definition in_ambiguous (lex : Lexicon) (w : str) : bool :=
  treat_as_common (commons lex) (commons_lower lex) (scored lex w)
  && negb (treat_as_proper (propers lex) (propers_lower lex) (scored lex w)).

End lexicon.

(** ** What the gold rows say

    The vocabulary of the statements about [_load_gold_labels] and
    [_sort_words]. *)

Section gold.
Context `{Builtins}.

(** The [word] and the [truth] the loop computes for a row. *)
Definition row_word (row : gmap str str) : str :=
  strip (default [] (row !! py "Word")).

Definition row_truth (row : gmap str str) : result Label :=
  _normalise_truth (strip (default [] (row !! py "Truth"))).

(** Some row gives the non-blank word [w] the normalised label [t]. *)
Definition labelled (reader : list (gmap str str)) (w : str) (t : Label)
    : Prop :=
  ∃ row, row ∈ reader ∧ row_word row = w ∧ w ≠ [] ∧ row_truth row = OK t.

(** The same word appears with two different normalised labels. *)
Definition conflicting (reader : list (gmap str str)) : Prop :=
  ∃ w t1 t2, labelled reader w t1 ∧ labelled reader w t2 ∧ t1 ≠ t2.

(** Every row with a non-blank word carries a recognised label. *)
Definition recognised (reader : list (gmap str str)) : Prop :=
  Forall (λ row, row_word row ≠ [] → ∃ t, row_truth row = OK t) reader.

(** The normalised label of the first row for the word [w]. *)
Fixpoint first_seen (reader : list (gmap str str)) (w : str) : option Label :=
  match reader with
  | [] => None
  | row :: reader =>
      if bool_decide (row_word row = w ∧ w ≠ [])
      then match row_truth row with OK t => Some t | Raise _ => None end
      else first_seen reader w
  end.

(** The order of the report's word lists: [x] before [y] when
    [(x.lower(), x) < (y.lower(), y)]. *)
Definition word_order (x y : str) : Prop :=
  lexico (str_lower x) (str_lower y)
  ∨ (str_lower x = str_lower y ∧ lexico x y).

End gold.

(** * Properties *)

(** ** Trimming *)

Lemma lstrip_idemp s : lstrip (lstrip s) = lstrip s.
Proof.
  induction s as [|c s IH]; simpl; [done|].
  destruct (isspace c) eqn:E; [done|]. simpl. by rewrite E.
Qed.

Lemma lstrip_unspaced c s : isspace c = false → lstrip (c :: s) = c :: s.
Proof. intros E. simpl. by rewrite E. Qed.

Lemma lstrip_head s c : head (lstrip s) = Some c → isspace c = false.
Proof.
  induction s as [|d s IH]; simpl; [done|].
  destruct (isspace d) eqn:E; [done|]. simpl. congruence.
Qed.

Lemma lstrip_suffix s : ∃ ws, s = ws ++ lstrip s.
Proof.
  induction s as [|c s [ws IH]]; simpl; [by exists []|].
  destruct (isspace c).
  - exists (c :: ws). simpl. by rewrite <- IH.
  - by exists [].
Qed.

Lemma rstrip_prefix s : ∃ ws, s = rstrip s ++ ws.
Proof.
  destruct (lstrip_suffix (reverse s)) as [ws E].
  exists (reverse ws). unfold rstrip.
  by rewrite <- reverse_app, <- E, reverse_involutive.
Qed.

Lemma rstrip_idemp s : rstrip (rstrip s) = rstrip s.
Proof. unfold rstrip. by rewrite reverse_involutive, lstrip_idemp. Qed.

Lemma lstrip_rstrip_lstrip s : lstrip (rstrip (lstrip s)) = rstrip (lstrip s).
Proof.
  destruct (rstrip_prefix (lstrip s)) as [ws E].
  destruct (rstrip (lstrip s)) as [|c t] eqn:R; [done|].
  apply lstrip_unspaced, (lstrip_head s). by rewrite E.
Qed.

(** [strip] is idempotent: a trimmed word is its own trimmed form. *)
Lemma strip_idemp s : strip (strip s) = strip s.
Proof. unfold strip. by rewrite lstrip_rstrip_lstrip, rstrip_idemp. Qed.

Lemma nonempty_true s : nonempty s = true ↔ s ≠ [].
Proof. unfold nonempty. by rewrite negb_true_iff, bool_decide_eq_false. Qed.

Lemma nonempty_false s : nonempty s = false ↔ s = [].
Proof. unfold nonempty. by rewrite negb_false_iff, bool_decide_eq_true. Qed.

Lemma nonempty_spec s : nonempty s ↔ s ≠ [].
Proof. rewrite Is_true_true. apply nonempty_true. Qed.

Lemma elem_of_stripped_list handle w :
  w ∈ stripped_list handle ↔ ∃ line, line ∈ handle ∧ strip line = w ∧ w ≠ [].
Proof.
  unfold stripped_list. rewrite list_elem_of_fmap. split.
  - intros (line & -> & Hin). apply list_elem_of_filter in Hin as [Hne Hin].
    exists line. by rewrite <- nonempty_spec.
  - intros (line & Hin & <- & Hne). exists line. split; [done|].
    apply list_elem_of_filter. by rewrite nonempty_spec.
Qed.

Lemma elem_of_stripped_set handle w :
  w ∈ stripped_set handle ↔ ∃ line, line ∈ handle ∧ strip line = w ∧ w ≠ [].
Proof.
  unfold stripped_set. rewrite elem_of_list_to_set.
  apply elem_of_stripped_list.
Qed.

(** Every member of a loaded word set is trimmed and non-empty. *)
Lemma stripped_set_trimmed handle w :
  w ∈ stripped_set handle → strip w = w ∧ w ≠ [].
Proof.
  rewrite elem_of_stripped_set. intros (line & _ & <- & Hne).
  by rewrite strip_idemp.
Qed.

(** ** Sorting *)

Section sorting.
Context {A K : Type} `{Lexico K} `{!StrictOrder (@lexico K _)}.
Context `{!TrichotomyT (@lexico K _)} `{!RelDecision (@lexico K _)}.
Context `{!EqDecision K} (key : A → K).

#[local] Instance py_le_refl : Reflexive (@py_le K _).
Proof. intros x. by right. Qed.

#[local] Instance py_le_trans : Transitive (@py_le K _).
Proof.
  intros x y z [Hxy| ->] [Hyz| ->]; unfold py_le; auto.
  left. by trans y.
Qed.

#[local] Instance py_le_total : Total (@py_le K _).
Proof.
  intros x y. unfold py_le.
  destruct (trichotomyT lexico x y) as [[?| ->]|?]; auto.
Qed.

Lemma py_le_antisymm (x y : K) : py_le x y → py_le y x → x = y.
Proof.
  intros [Hxy|Hxy] [Hyx|Hyx]; try done.
  destruct (irreflexivity lexico x). by trans y.
Qed.

#[local] Instance key_le_trans : Transitive (λ x y : A, py_le (key x) (key y)).
Proof. intros x y z Hxy Hyz. by trans (key y). Qed.

#[local] Instance key_le_total : Total (λ x y : A, py_le (key x) (key y)).
Proof. intros x y. apply (total py_le). Qed.

Lemma sorted_by_Permutation l : sorted_by key l ≡ₚ l.
Proof. apply merge_sort_Permutation. Qed.

Lemma sorted_by_ascending l :
  StronglySorted (λ x y, py_le (key x) (key y)) (sorted_by key l).
Proof. apply (StronglySorted_merge_sort _). Qed.

Lemma elem_of_sorted_by l x : x ∈ sorted_by key l ↔ x ∈ l.
Proof. by rewrite sorted_by_Permutation. Qed.

Lemma length_sorted_by l : length (sorted_by key l) = length l.
Proof. by rewrite sorted_by_Permutation. Qed.

Lemma NoDup_sorted_by l : NoDup l → NoDup (sorted_by key l).
Proof. by rewrite sorted_by_Permutation. Qed.

(** Distinct items with distinct keys come out strictly ascending. *)
Lemma StronglySorted_strict l :
  Inj (=) (=) key → NoDup l →
  StronglySorted (λ x y, py_le (key x) (key y)) l →
  StronglySorted (λ x y, lexico (key x) (key y)) l.
Proof.
  intros Hinj. induction l as [|x l IH]; intros Hnd Hs; [constructor|].
  apply NoDup_cons in Hnd as [Hx Hnd].
  apply StronglySorted_inv in Hs as [Hs Hall].
  constructor; [by apply IH|].
  rewrite Forall_forall in Hall |- *. intros y Hy.
  destruct (Hall y Hy) as [Hlt|Heq]; [done|].
  apply Hinj in Heq as ->. by destruct Hx.
Qed.

Lemma sorted_by_strict l :
  Inj (=) (=) key → NoDup l →
  StronglySorted (λ x y, lexico (key x) (key y)) (sorted_by key l).
Proof.
  intros Hinj Hnd. apply StronglySorted_strict; [done| |].
  - by apply NoDup_sorted_by.
  - apply sorted_by_ascending.
Qed.

(** With an injective key the result depends on the items only, not on the
    order in which they are presented. *)
Lemma sorted_by_unique l1 l2 :
  Inj (=) (=) key → l1 ≡ₚ l2 → sorted_by key l1 = sorted_by key l2.
Proof.
  intros Hinj Hp.
  apply (StronglySorted_unique_strong (λ x y, py_le (key x) (key y))).
  - intros x y _ _ Hxy Hyx. apply Hinj. by apply py_le_antisymm.
  - apply sorted_by_ascending.
  - apply sorted_by_ascending.
  - by rewrite !sorted_by_Permutation.
Qed.

End sorting.

Lemma sort_key_inj `{Builtins} : Inj (=) (=) sort_key.
Proof. intros x y. unfold sort_key. congruence. Qed.

(** ** [dict.fromkeys] *)

Lemma dict_fromkeys_acc (l keys : list str) :
  let r := foldl (λ keys k, if bool_decide (k ∈ keys) then keys else keys ++ [k])
             keys l in
  (NoDup keys → NoDup r) ∧ ∀ k, k ∈ r ↔ k ∈ keys ∨ k ∈ l.
Proof.
  revert keys. induction l as [|x l IH]; intros keys; simpl.
  - split; [done|]. intros k. rewrite elem_of_nil. tauto.
  - destruct (IH (if bool_decide (x ∈ keys) then keys else keys ++ [x]))
      as [Hnd Hin].
    split.
    + intros Hk. apply Hnd. case_bool_decide; [done|].
      apply NoDup_app. split_and!; [done| |apply NoDup_singleton].
      intros y Hy ->%list_elem_of_singleton. done.
    + intros k. rewrite Hin, elem_of_cons. case_bool_decide.
      * split; [tauto|]. intros [?|[->|?]]; auto.
      * rewrite elem_of_app, list_elem_of_singleton. tauto.
Qed.

Lemma NoDup_dict_fromkeys l : NoDup (dict_fromkeys l).
Proof. apply (dict_fromkeys_acc l []), NoDup_nil_2. Qed.

Lemma elem_of_dict_fromkeys l k : k ∈ dict_fromkeys l ↔ k ∈ l.
Proof.
  unfold dict_fromkeys. rewrite (proj2 (dict_fromkeys_acc l []) k).
  rewrite elem_of_nil. tauto.
Qed.

(** ** The lexicon caches *)

Section classifier_facts.
Context `{Builtins} `{Wordfreq} `{Package}.

(** The four loaders, run in the order of [classify_words] and
    [classify_word], return [lexicon_of c] and leave the caches [loaded c]. *)
Lemma load_all (c : Cache) {A} (k : gset str → gset str → gset str → gset str → M A) :
  (commons ← _load_common_words;
   commons_lower ← _load_common_lower;
   propers ← _load_proper_words;
   propers_lower ← _load_proper_lower;
   k commons commons_lower propers propers_lower) c
  = k (commons (lexicon_of c)) (commons_lower (lexicon_of c))
      (propers (lexicon_of c)) (propers_lower (lexicon_of c)) (loaded c).
Proof.
  destruct c as [[cc|] [cl|] [pc|] [pl|]]; reflexivity.
Qed.

Lemma lexicon_of_loaded c : lexicon_of (loaded c) = lexicon_of c.
Proof. by destruct c as [[cc|] [cl|] [pc|] [pl|]]. Qed.

Lemma loaded_idemp c : loaded (loaded c) = loaded c.
Proof. unfold loaded at 1. by rewrite lexicon_of_loaded. Qed.

Lemma cache_ok_fresh : cache_ok fresh_cache.
Proof. repeat split; by left. Qed.

Lemma cache_ok_lexicon c : cache_ok c → lexicon_of c = package_lexicon.
Proof.
  destruct c as [cc cl pc pl]. unfold cache_ok. simpl.
  intros ([-> | ->] & [-> | ->] & [-> | ->] & [-> | ->]); reflexivity.
Qed.

Lemma cache_ok_loaded c : cache_ok c → cache_ok (loaded c).
Proof.
  intros Hc. unfold loaded. rewrite (cache_ok_lexicon c Hc).
  repeat split; by right.
Qed.

(** Members of the package's proper lexicon are trimmed and non-empty. *)
Lemma propers_trimmed w :
  w ∈ propers package_lexicon → strip w = w ∧ w ≠ [].
Proof.
  unfold package_lexicon, lexicon_of. simpl.
  destruct proper_txt as [handle|]; simpl.
  - apply stripped_set_trimmed.
  - set_solver.
Qed.

Lemma commons_trimmed w :
  w ∈ commons package_lexicon → strip w = w ∧ w ≠ [].
Proof. apply stripped_set_trimmed. Qed.

(** ** The word scorer *)

Lemma classify_word_empty raw c :
  strip raw = [] →
  classify_word raw c
  = (Build_ClassificationResult [] (py "unknown") 0.0 (py "empty"), c).
Proof. intros E. unfold classify_word. rewrite E. reflexivity. Qed.

Lemma classify_word_scored raw c :
  strip raw ≠ [] →
  classify_word raw c = (scored (lexicon_of c) (strip raw), loaded c).
Proof.
  intros E. unfold classify_word.
  apply nonempty_true in E. rewrite E. simpl negb. cbv iota.
  apply (load_all c).
Qed.

Lemma decide_label_cases s :
  decide_label s = py "likely ambiguous"
  ∨ decide_label s = py "likely non-ambiguous".
Proof.
  unfold decide_label.
  destruct (PrimFloat.leb s _NOT_THRESHOLD),
    (PrimFloat.leb _COMMON_THRESHOLD s); auto.
Qed.

Lemma decide_label_known s : decide_label s ≠ py "unknown".
Proof. destruct (decide_label_cases s) as [-> | ->]; discriminate. Qed.

(** ** The batch classifier *)

Lemma classify_loop_filter (lex : Lexicon) (c : Cache) words ambiguous proper :
  lexicon_of c = lex →
  classify_loop (commons lex) (commons_lower lex) (propers lex)
    (propers_lower lex) words ambiguous proper (loaded c)
  = ((ambiguous ++ filter (λ w, in_ambiguous lex w) (stripped_list words),
      proper ++ filter (λ w, ¬ in_ambiguous lex w) (stripped_list words)),
     loaded c).
Proof.
  intros Hlex. revert ambiguous proper.
  induction words as [|raw words IH]; intros ambiguous proper.
  - simpl. by rewrite !app_nil_r.
  - cbn [classify_loop]. unfold mbind at 1, M_bind.
    destruct (decide (strip raw = [])) as [E|E].
    + rewrite (classify_word_empty _ _ E). cbn [word label].
      rewrite (bool_decide_eq_true_2 (@nil char = [])) by done. cbn [orb].
      rewrite IH. unfold stripped_list. rewrite filter_cons_False; [done|].
      rewrite nonempty_spec. tauto.
    + rewrite (classify_word_scored _ _ E), lexicon_of_loaded, loaded_idemp, Hlex.
      assert (stripped_list (raw :: words) = strip raw :: stripped_list words)
        as ->.
      { unfold stripped_list. rewrite filter_cons_True; [done|].
        by rewrite nonempty_spec. }
      rewrite (bool_decide_eq_false_2 (word (scored lex (strip raw)) = [])) by done.
      rewrite (bool_decide_eq_false_2 (label (scored lex (strip raw)) = _))
        by apply decide_label_known.
      cbn [orb]. fold (in_ambiguous lex (strip raw)).
      destruct (in_ambiguous lex (strip raw)) eqn:Hb; rewrite IH.
      * rewrite filter_cons_True by (rewrite Hb; simpl; tauto).
        rewrite filter_cons_False by (rewrite Hb; simpl; tauto).
        by rewrite <- app_assoc.
      * rewrite filter_cons_False by (rewrite Hb; simpl; tauto).
        rewrite filter_cons_True by (rewrite Hb; simpl; tauto).
        by rewrite <- app_assoc.
Qed.

(** [classify_words] splits the trimmed non-empty words by [in_ambiguous],
    and leaves the caches loaded. *)
Lemma classify_words_filter words c :
  classify_words words c
  = ((filter (λ w, in_ambiguous (lexicon_of c) w) (stripped_list words),
      filter (λ w, ¬ in_ambiguous (lexicon_of c) w) (stripped_list words)),
     loaded c).
Proof.
  unfold classify_words. rewrite load_all.
  by rewrite (classify_loop_filter (lexicon_of c)).
Qed.

End classifier_facts.

(** ** Claims about the classifier *)

Section classifier_claims.
Context `{Builtins} `{Wordfreq} `{Package}.

(** C10. [classify_words] places every input word whose trimmed form is
    non-empty, as that trimmed form, in exactly one of the two lists it
    returns; each list keeps the input order and every repetition, so the two
    lists together are a rearrangement of the trimmed non-empty inputs and
    their lengths add up to the number of such inputs. *)
Theorem classify_words_partition (words : list str) (c : Cache) :
  let ambiguous := (classify_words words c).1.1 in
  let proper := (classify_words words c).1.2 in
  let trimmed := stripped_list words in
  ambiguous = filter (λ w, in_ambiguous (lexicon_of c) w) trimmed
  ∧ proper = filter (λ w, ¬ in_ambiguous (lexicon_of c) w) trimmed
  ∧ (∀ w, w ∈ trimmed →
       (w ∈ ambiguous ∧ w ∉ proper) ∨ (w ∈ proper ∧ w ∉ ambiguous))
  ∧ ambiguous ++ proper ≡ₚ trimmed
  ∧ length ambiguous + length proper
    = length (filter (λ raw, nonempty (strip raw)) words).
Proof.
  rewrite classify_words_filter. cbn [fst snd]. cbv zeta.
  split_and!; [done|done| | |].
  - intros w Hw. rewrite !list_elem_of_filter.
    destruct (in_ambiguous (lexicon_of c) w); simpl; tauto.
  - apply filter_app_complement.
  - rewrite <- length_app, filter_app_complement.
    unfold stripped_list. by rewrite length_fmap.
Qed.

(** C3. A member [w] of the proper lexicon is never placed in the ambiguous
    list: [classify_words([w])] returns it alone in the proper list, whatever
    its score.  In general a word goes to the ambiguous list when
    [treat_as_common and not treat_as_proper], to the proper list otherwise,
    and [treat_as_proper] holds of every member of the proper lexicon. *)
Theorem proper_lexicon_override (w : str) (c : Cache) :
  cache_ok c →
  w ∈ propers package_lexicon →
  let lex := lexicon_of c in
  (classify_words [w] c).1 = ([], [w])
  ∧ treat_as_proper (propers lex) (propers_lower lex) (classify_word w c).1
    = true
  ∧ ∀ raw, strip raw ≠ [] →
      let res := (classify_word raw c).1 in
      (classify_words [raw] c).1
      = if treat_as_common (commons lex) (commons_lower lex) res
           && negb (treat_as_proper (propers lex) (propers_lower lex) res)
        then ([word res], []) else ([], [word res]).
Proof.
  intros Hc Hw lex.
  destruct (propers_trimmed w Hw) as [Hstrip Hne].
  assert (strip w ≠ []) as Hne' by (by rewrite Hstrip).
  assert (treat_as_proper (propers lex) (propers_lower lex)
            (classify_word w c).1 = true) as Hproper.
  { rewrite (classify_word_scored w c Hne'). cbn [fst].
    unfold treat_as_proper, scored. cbn [word]. rewrite Hstrip.
    subst lex. rewrite (cache_ok_lexicon c Hc).
    by rewrite bool_decide_eq_true_2. }
  assert (∀ raw, strip raw ≠ [] →
      let res := (classify_word raw c).1 in
      (classify_words [raw] c).1
      = if treat_as_common (commons lex) (commons_lower lex) res
           && negb (treat_as_proper (propers lex) (propers_lower lex) res)
        then ([word res], []) else ([], [word res])) as Hrule.
  { intros raw Hraw. cbv zeta.
    rewrite classify_words_filter, (classify_word_scored raw c Hraw).
    cbn [fst]. unfold stripped_list.
    rewrite filter_cons_True by (by rewrite nonempty_spec).
    rewrite filter_nil. cbn [fmap list_fmap].
    fold lex. unfold scored at 3 4. cbn [word].
    fold (in_ambiguous lex (strip raw)).
    destruct (in_ambiguous lex (strip raw)) eqn:Hb.
    - rewrite filter_cons_True by (rewrite Hb; simpl; tauto).
      rewrite filter_cons_False by (rewrite Hb; simpl; tauto). done.
    - rewrite filter_cons_False by (rewrite Hb; simpl; tauto).
      rewrite filter_cons_True by (rewrite Hb; simpl; tauto). done. }
  split_and!; [|done|done].
  rewrite (Hrule w Hne'). cbv zeta. rewrite Hproper, andb_false_r.
  rewrite (classify_word_scored w c Hne'). cbn [fst]. unfold scored.
  cbn [word]. by rewrite Hstrip.
Qed.

(** C8. On an input whose trimmed form is empty the word scorer returns the
    label "unknown", the score 0.0 and the reason "empty", and loads no
    lexicon: the caches are left as they were.  On any other input the label
    is "likely ambiguous" exactly when the score reaches [_COMMON_THRESHOLD]
    and is not at or below [_NOT_THRESHOLD], and "likely non-ambiguous"
    exactly when the score is below [_COMMON_THRESHOLD] or at or below
    [_NOT_THRESHOLD]. *)
Theorem classify_word_decision (raw : str) (c : Cache) :
  (strip raw = [] →
   classify_word raw c
   = (Build_ClassificationResult [] (py "unknown") 0.0 (py "empty"), c))
  ∧ (strip raw ≠ [] →
     let res := (classify_word raw c).1 in
     let lex := lexicon_of c in
     word res = strip raw
     ∧ score res
       = word_score (commons lex) (commons_lower lex) (propers lex)
           (propers_lower lex) (strip raw)
     ∧ (label res = py "likely ambiguous"
        ↔ PrimFloat.leb _COMMON_THRESHOLD (score res) = true
          ∧ PrimFloat.leb (score res) _NOT_THRESHOLD = false)
     ∧ (label res = py "likely non-ambiguous"
        ↔ PrimFloat.leb _COMMON_THRESHOLD (score res) = false
          ∨ PrimFloat.leb (score res) _NOT_THRESHOLD = true)).
Proof.
  split; [apply classify_word_empty|].
  intros Hne. rewrite (classify_word_scored raw c Hne). cbn [fst]. cbv zeta.
  unfold scored. cbn [word score label].
  set (s := word_score _ _ _ _ _). split_and!; [done|done| |];
    unfold decide_label;
    destruct (PrimFloat.leb s _NOT_THRESHOLD),
      (PrimFloat.leb _COMMON_THRESHOLD s);
    split; try done; try (intros [? ?]; done); try (intros [?|?]; done);
    auto.
Qed.

(** C1, as the code has it.  The lists [classify_words] returns keep input
    order and repetitions (C10); it is [classify_file] that removes
    duplicates and sorts.  Each list [classify_file] writes has no duplicate,
    is strictly ascending in the plain code-point order of the literal
    strings, and holds exactly the words of the list [classify_words]
    returned.  Calling [classify_words], or [classify_file], a second time
    on the same input, with the caches the first call left, returns the same
    lists. *)
Theorem classify_file_sorted_unique (reader : list str) (c : Cache) :
  let written := (classify_file reader c).1 in
  let lists := (classify_words (stripped_list reader) c).1 in
  (NoDup written.1 ∧ StronglySorted lexico written.1
   ∧ ∀ w, w ∈ written.1 ↔ w ∈ lists.1)
  ∧ (NoDup written.2 ∧ StronglySorted lexico written.2
     ∧ ∀ w, w ∈ written.2 ↔ w ∈ lists.2)
  ∧ (∀ words,
       (classify_words words (classify_words words c).2).1
       = (classify_words words c).1)
  ∧ (classify_file reader (classify_file reader c).2).1 = written.
Proof.
  assert (∀ l : list str,
    NoDup (sorted (dict_fromkeys l))
    ∧ StronglySorted lexico (sorted (dict_fromkeys l))
    ∧ ∀ w, w ∈ sorted (dict_fromkeys l) ↔ w ∈ l) as Hsorted.
  { intros l. unfold sorted. split_and!.
    - apply NoDup_sorted_by, NoDup_dict_fromkeys.
    - apply (sorted_by_strict (K:=str) id); [apply _|apply NoDup_dict_fromkeys].
    - intros w. by rewrite elem_of_sorted_by, elem_of_dict_fromkeys. }
  assert (∀ words c0, classify_file words c0
    = ((sorted (dict_fromkeys (classify_words (stripped_list words) c0).1.1),
        sorted (dict_fromkeys (classify_words (stripped_list words) c0).1.2)),
       (classify_words (stripped_list words) c0).2)) as Hfile.
  { intros words c0. unfold classify_file. unfold mbind at 1, M_bind.
    by destruct (classify_words (stripped_list words) c0) as [[a p] c1]. }
  assert (∀ words,
       (classify_words words (classify_words words c).2).1
       = (classify_words words c).1) as Htwice.
  { intros words. rewrite !classify_words_filter. cbn [fst snd].
    by rewrite lexicon_of_loaded. }
  cbv zeta. rewrite !Hfile. cbn [fst snd]. rewrite Htwice.
  split_and!; try apply Hsorted; done.
Qed.

End classifier_claims.

(** ** Sizes of finite sets *)

Section sizes.
Implicit Types X Y Z : gset str.

Lemma size_split X Y : size X = size (X ∩ Y) + size (X ∖ Y).
Proof.
  rewrite <- size_union by set_solver. f_equal.
  apply set_eq. intros x. rewrite elem_of_union, elem_of_intersection,
    elem_of_difference. destruct (decide (x ∈ Y)); tauto.
Qed.

(** The sizes of the confusion sets built from the gold words [G], the
    common ones [GC] among them and the two prediction sets [A] and [P],
    when no gold word is predicted both ways. *)
Lemma confusion_sizes (G GC A P : gset str) :
  GC ⊆ G →
  (A ∩ G) ∩ (P ∩ G) = ∅ →
  let PC := A ∩ G in
  let PP := P ∩ G in
  let missing := G ∖ (PC ∪ PP) in
  size (GC ∩ PC) + size (GC ∖ PC) = size GC
  ∧ size (GC ∩ PC) + size (PC ∩ (G ∖ GC)) = size PC
  ∧ size (GC ∩ PC) + size ((G ∖ GC) ∩ PP) + size (PC ∩ (G ∖ GC))
    + size (GC ∖ PC) + size missing
    = size G + size (missing ∩ GC)
  ∧ size (missing ∩ GC) ≤ size missing
  ∧ size GC = size (((A ∪ P) ∩ G) ∩ GC) + size (missing ∩ GC).
Proof.
  intros Hsub Hov. cbv zeta.
  remember (A ∩ G) as PC eqn:HPC. remember (P ∩ G) as PP eqn:HPP.
  remember (G ∖ (PC ∪ PP)) as missing eqn:Hmissing.
  assert (PC ∩ GC = GC ∩ PC) as E1 by set_solver.
  assert (PC ∖ GC = PC ∩ (G ∖ GC)) as E2 by set_solver.
  assert (G ∩ GC = GC) as E3 by set_solver.
  assert (((G ∖ GC) ∩ (PC ∪ PP)) ∩ PC = PC ∩ (G ∖ GC)) as E4 by set_solver.
  assert (((G ∖ GC) ∩ (PC ∪ PP)) ∖ PC = (G ∖ GC) ∩ PP) as E5 by set_solver.
  assert (missing ∖ GC = (G ∖ GC) ∖ (PC ∪ PP)) as E6 by set_solver.
  assert (GC ∩ (PC ∪ PP) = ((A ∪ P) ∩ G) ∩ GC) as E7 by set_solver.
  assert (GC ∖ (PC ∪ PP) = missing ∩ GC) as E8 by set_solver.
  pose proof (size_split GC PC) as H1.
  pose proof (size_split PC GC) as H2. rewrite E1, E2 in H2.
  pose proof (size_split G GC) as H3. rewrite E3 in H3.
  pose proof (size_split (G ∖ GC) (PC ∪ PP)) as H4.
  pose proof (size_split ((G ∖ GC) ∩ (PC ∪ PP)) PC) as H5.
  rewrite E4, E5 in H5.
  pose proof (size_split missing GC) as H6. rewrite E6 in H6.
  pose proof (size_split GC (PC ∪ PP)) as H7. rewrite E7, E8 in H7.
  lia.
Qed.

End sizes.

(** ** The gold file *)

Section gold_facts.
Context `{Builtins}.

Lemma gold_rows_cons row reader labels :
  gold_rows (row :: reader) labels
  = if negb (nonempty (row_word row)) then gold_rows reader labels
    else
      match row_truth row with
      | OK truth =>
          match labels !! row_word row with
          | Some existing =>
              if bool_decide (existing ≠ truth)
              then Raise (ConflictingLabels (row_word row) existing truth)
              else gold_rows reader (<[row_word row := truth]> labels)
          | None => gold_rows reader (<[row_word row := truth]> labels)
          end
      | Raise e => Raise e
      end.
Proof. reflexivity. Qed.

Lemma _normalise_truth_labels raw t :
  _normalise_truth raw = OK t → t = py "common" ∨ t = py "proper".
Proof.
  unfold _normalise_truth. repeat case_bool_decide; intros E; simplify_eq; auto.
Qed.

Lemma _normalise_truth_error raw e :
  _normalise_truth raw = Raise e → e = UnrecognisedLabel raw.
Proof.
  unfold _normalise_truth. repeat case_bool_decide; intros E; by simplify_eq.
Qed.

Lemma labelled_cons row reader w t :
  labelled (row :: reader) w t
  ↔ (row_word row = w ∧ w ≠ [] ∧ row_truth row = OK t) ∨ labelled reader w t.
Proof.
  unfold labelled. split.
  - intros (r & Hin & Hr). apply elem_of_cons in Hin as [-> | Hin]; eauto.
  - intros [Hr | (r & Hin & Hr)].
    + exists row. split; [apply list_elem_of_here|done].
    + exists r. split; [by apply list_elem_of_further|done].
Qed.

(** A conflict error names a word, the label an earlier row (or the labels
    so far) gave it, and the different label of the row that failed. *)
Lemma gold_rows_conflict reader labels w e t :
  gold_rows reader labels = Raise (ConflictingLabels w e t) →
  e ≠ t ∧ labelled reader w t ∧ (labels !! w = Some e ∨ labelled reader w e).
Proof.
  revert labels. induction reader as [|row reader IH]; intros labels; [done|].
  rewrite gold_rows_cons, !labelled_cons.
  destruct (nonempty (row_word row)) eqn:Hne; simpl.
  2: { intros E. destruct (IH _ E) as (? & ? & ?). tauto. }
  apply nonempty_true in Hne.
  destruct (row_truth row) as [truth|err] eqn:Ht.
  2: { apply _normalise_truth_error in Ht. by subst err. }
  assert (gold_rows reader (<[row_word row := truth]> labels)
          = Raise (ConflictingLabels w e t) →
          (labels !! row_word row = None ∨ labels !! row_word row = Some truth) →
          e ≠ t ∧ (row_word row = w ∧ w ≠ [] ∧ OK truth = OK t ∨ labelled reader w t)
          ∧ (labels !! w = Some e
             ∨ row_word row = w ∧ w ≠ [] ∧ OK truth = OK e ∨ labelled reader w e))
    as Hnext.
  { intros E Hold. destruct (IH _ E) as (Hd & Ht' & [Hl | Hl]).
    - split_and!; [done|by right|].
      destruct (decide (row_word row = w)) as [Hw|Hw].
      + rewrite Hw, lookup_insert_eq in Hl. simplify_eq. right. left.
        split_and!; congruence.
      + rewrite lookup_insert_ne in Hl by done. by left.
    - split_and!; [done|by right|by right; right]. }
  destruct (labels !! row_word row) as [existing|] eqn:Hl.
  - case_bool_decide as Hd.
    + intros E. simplify_eq. split_and!; [done| |by left].
      left. done.
    + subst existing. intros E. apply Hnext; auto.
  - intros E. apply Hnext; auto.
Qed.

(** With recognised labels the loop ends in a mapping or in a conflict
    error; a mapping holds the label of every row and nothing else. *)
Lemma gold_rows_recognised reader labels :
  recognised reader →
  (∃ w e t, gold_rows reader labels = Raise (ConflictingLabels w e t))
  ∨ ∃ final, gold_rows reader labels = OK final
      ∧ (∀ w t, labelled reader w t → final !! w = Some t)
      ∧ (∀ w e, labels !! w = Some e → final !! w = Some e)
      ∧ (∀ w t, final !! w = Some t →
           labels !! w = Some t ∨ labelled reader w t).
Proof.
  intros Hrec. revert labels.
  induction Hrec as [|row reader Hrow Hrec IH]; intros labels.
  { right. exists labels. split_and!; [done| |done|auto].
    intros w t (r & Hin & _). by apply elem_of_nil in Hin. }
  rewrite gold_rows_cons.
  destruct (nonempty (row_word row)) eqn:Hne; simpl.
  2: { apply nonempty_false in Hne.
       destruct (IH labels) as [?|(final & E & Hall & Hext & Hfrom)]; [by left|].
       right. exists final. split_and!; [done| |done|].
       - intros w t [(Hw & Hn & _)|Hl]%labelled_cons; [congruence|auto].
       - intros w t Hf. destruct (Hfrom w t Hf); [by left|].
         right. apply labelled_cons. by right. }
  apply nonempty_true in Hne. destruct (Hrow Hne) as [truth Ht]. rewrite Ht.
  assert ((labels !! row_word row = None ∨ labels !! row_word row = Some truth) →
    (∃ w e t, gold_rows reader (<[row_word row := truth]> labels)
              = Raise (ConflictingLabels w e t))
    ∨ ∃ final, gold_rows reader (<[row_word row := truth]> labels) = OK final
        ∧ (∀ w t, labelled (row :: reader) w t → final !! w = Some t)
        ∧ (∀ w e, labels !! w = Some e → final !! w = Some e)
        ∧ (∀ w t, final !! w = Some t →
             labels !! w = Some t ∨ labelled (row :: reader) w t)) as Hnext.
  { intros Hold.
    destruct (IH (<[row_word row := truth]> labels))
      as [?|(final & E & Hall & Hext & Hfrom)]; [by left|].
    right. exists final. split_and!; [done| | |].
    - intros w t [(Hw & Hn & Hk)|Hl]%labelled_cons; [|auto].
      apply Hext. rewrite Ht in Hk. simplify_eq. apply lookup_insert_eq.
    - intros w e Hl. apply Hext.
      destruct (decide (row_word row = w)) as [Hw|Hw].
      + rewrite Hw, lookup_insert_eq. destruct Hold; congruence.
      + by rewrite lookup_insert_ne.
    - intros w t Hf. destruct (Hfrom w t Hf) as [Hl|Hl].
      + destruct (decide (row_word row = w)) as [Hw|Hw].
        * rewrite Hw, lookup_insert_eq in Hl. simplify_eq.
          right. apply labelled_cons. left. by rewrite Ht.
        * rewrite lookup_insert_ne in Hl by done. by left.
      + right. apply labelled_cons. by right. }
  destruct (labels !! row_word row) as [existing|] eqn:Hl.
  - case_bool_decide as Hd.
    + left. eauto.
    + subst existing. apply Hnext. auto.
  - apply Hnext. auto.
Qed.

Lemma first_seen_labelled reader w t :
  first_seen reader w = Some t → labelled reader w t.
Proof.
  induction reader as [|row reader IH]; simpl; [done|].
  rewrite labelled_cons. case_bool_decide as Hw.
  - destruct (row_truth row) as [t'|]; [|done].
    intros E. simplify_eq. left. tauto.
  - auto.
Qed.

Lemma first_seen_None reader w t :
  recognised reader → first_seen reader w = None → ¬ labelled reader w t.
Proof.
  intros Hrec. induction Hrec as [|row reader Hrow Hrec IH]; simpl.
  { intros _ (r & Hin & _). by apply elem_of_nil in Hin. }
  rewrite labelled_cons. case_bool_decide as Hw.
  - destruct Hw as [Hw Hn]. destruct Hrow as [t' Ht']; [congruence|].
    by rewrite Ht'.
  - intros E [(? & ? & ?)|Hl]; [tauto|]. by apply IH.
Qed.

Lemma header_accepted (gold : GoldFile) names :
  fieldnames gold = Some names → py "Word" ∈ names → py "Truth" ∈ names →
  _load_gold_labels gold = gold_rows (rows gold) ∅.
Proof.
  intros E Hw Ht. unfold _load_gold_labels. rewrite E.
  rewrite bool_decide_eq_false_2; [done|].
  intros Hne. apply Hne. set_solver.
Qed.

Lemma gold_rows_app reader1 reader2 labels :
  gold_rows (reader1 ++ reader2) labels
  = gold_rows reader1 labels ≫= gold_rows reader2.
Proof.
  revert labels. induction reader1 as [|row reader1 IH]; intros labels; [done|].
  rewrite <- app_comm_cons, !gold_rows_cons.
  destruct (negb (nonempty (row_word row))); [apply IH|].
  destruct (row_truth row) as [truth|err]; [|done].
  destruct (labels !! row_word row) as [existing|]; [|apply IH].
  case_bool_decide; [done|apply IH].
Qed.

(** A conflict error is raised within an initial part of the file whose
    rows all carry recognised labels. *)
Lemma gold_rows_conflict_prefix reader labels w e t :
  gold_rows reader labels = Raise (ConflictingLabels w e t) →
  ∃ n, recognised (take n reader)
    ∧ gold_rows (take n reader) labels = Raise (ConflictingLabels w e t).
Proof.
  revert labels. induction reader as [|row reader IH]; intros labels; [done|].
  rewrite gold_rows_cons.
  destruct (nonempty (row_word row)) eqn:Hne; cbn [negb].
  2: { intros E. destruct (IH _ E) as (n & Hrec & Hn). exists (S n).
       cbn [take]. rewrite gold_rows_cons, Hne. split; [|done].
       constructor; [|done]. apply nonempty_false in Hne. congruence. }
  destruct (row_truth row) as [truth|err] eqn:Ht.
  2: { apply _normalise_truth_error in Ht. by subst err. }
  destruct (labels !! row_word row) as [existing|] eqn:Hl.
  - case_bool_decide as Hd.
    + intros E. exists 1. cbn [take]. split.
      * constructor; [eauto|constructor].
      * by rewrite gold_rows_cons, Hne, Ht, Hl, bool_decide_eq_true_2.
    + subst existing. intros E. destruct (IH _ E) as (n & Hrec & Hn).
      exists (S n). cbn [take]. split; [constructor; eauto|].
      rewrite gold_rows_cons, Hne, Ht, Hl.
      by rewrite bool_decide_eq_false_2 by tauto.
  - intros E. destruct (IH _ E) as (n & Hrec & Hn).
    exists (S n). cbn [take]. split; [constructor; eauto|].
    by rewrite gold_rows_cons, Hne, Ht, Hl.
Qed.

Lemma labelled_take n reader w t :
  labelled (take n reader) w t → labelled reader w t.
Proof.
  intros (row & Hin & Hrow). exists row. split; [|done].
  rewrite <- (take_drop n reader). apply elem_of_app. by left.
Qed.

(** A mapping is only returned when every label is recognised. *)
Lemma gold_rows_OK_recognised reader labels final :
  gold_rows reader labels = OK final → recognised reader.
Proof.
  revert labels. induction reader as [|row reader IH]; intros labels.
  { constructor. }
  rewrite gold_rows_cons.
  destruct (nonempty (row_word row)) eqn:Hne; cbn [negb].
  2: { intros E. constructor; [|by eapply IH].
       apply nonempty_false in Hne. congruence. }
  destruct (row_truth row) as [truth|err] eqn:Ht; [|done].
  destruct (labels !! row_word row) as [existing|].
  - case_bool_decide; [done|]. intros E. constructor; [eauto|by eapply IH].
  - intros E. constructor; [eauto|by eapply IH].
Qed.

(** C6, as the code has it.  For a gold file with the [Word] and [Truth]
    columns, parsing fails with a conflict error exactly when some word
    appears with two different normalised labels in an initial part of the
    file whose rows all carry a recognised label, that is before any
    unrecognised label; the error names two different labels of one word.
    When every row carries a recognised label this is exactly when some word
    appears with two different normalised labels; when none does, parsing
    succeeds and the mapping gives each word the normalised label of its
    first row, which every later row for the word repeats. *)
Theorem gold_conflict_detection (gold : GoldFile) (names : list str) :
  fieldnames gold = Some names →
  py "Word" ∈ names →
  py "Truth" ∈ names →
  ((∃ w e t, _load_gold_labels gold = Raise (ConflictingLabels w e t))
   ↔ ∃ n, recognised (take n (rows gold)) ∧ conflicting (take n (rows gold)))
  ∧ (∀ w e t, _load_gold_labels gold = Raise (ConflictingLabels w e t) →
       e ≠ t ∧ labelled (rows gold) w e ∧ labelled (rows gold) w t)
  ∧ (recognised (rows gold) →
     ((∃ w e t, _load_gold_labels gold = Raise (ConflictingLabels w e t))
      ↔ conflicting (rows gold)))
  ∧ (recognised (rows gold) → ¬ conflicting (rows gold) →
     ∃ labels, _load_gold_labels gold = OK labels
       ∧ (∀ w, labels !! w = first_seen (rows gold) w)
       ∧ ∀ w t, labelled (rows gold) w t → labels !! w = Some t).
Proof.
  intros E Hw Ht. rewrite (header_accepted gold names E Hw Ht).
  assert (∀ reader w e t,
    gold_rows reader ∅ = Raise (ConflictingLabels w e t) →
    e ≠ t ∧ labelled reader w e ∧ labelled reader w t) as Hnames.
  { intros reader w e t Hr.
    destruct (gold_rows_conflict _ _ _ _ _ Hr) as (Hd & Hl & [Hl'|Hl']).
    - by rewrite lookup_empty in Hl'.
    - done. }
  assert (∀ reader, recognised reader → conflicting reader →
    ∃ w e t, gold_rows reader ∅ = Raise (ConflictingLabels w e t)) as Hraise.
  { intros reader Hrec (w & t1 & t2 & H1 & H2 & Hd).
    destruct (gold_rows_recognised reader ∅ Hrec)
      as [?|(final & Hf & Hall & _)]; [done|].
    apply Hall in H1, H2. congruence. }
  split_and!.
  - split.
    + intros (w & e & t & Hr).
      destruct (gold_rows_conflict_prefix _ _ _ _ _ Hr) as (n & Hrec & Hn).
      exists n. split; [done|].
      destruct (Hnames _ _ _ _ Hn) as (Hd & He & Ht').
      by exists w, e, t.
    + intros (n & Hrec & Hc).
      destruct (Hraise _ Hrec Hc) as (w & e & t & Hn).
      exists w, e, t.
      rewrite <- (take_drop n (rows gold)), gold_rows_app, Hn. done.
  - apply Hnames.
  - intros Hrec. split.
    + intros (w & e & t & Hr). destruct (Hnames _ _ _ _ Hr) as (Hd & He & Ht').
      by exists w, e, t.
    + by apply Hraise.
  - intros Hrec Hno.
    destruct (gold_rows_recognised (rows gold) ∅ Hrec)
      as [Herr|(final & Hf & Hall & _ & Hfrom)].
    { destruct Herr as (w & e & t & Hr). destruct Hno.
      destruct (Hnames _ _ _ _ Hr) as (Hd & He & Ht'). by exists w, e, t. }
    exists final. split_and!; [done| |done].
    intros w. destruct (first_seen (rows gold) w) as [t|] eqn:Hfs.
    + by apply Hall, first_seen_labelled.
    + destruct (final !! w) as [t|] eqn:Hl; [|done].
      destruct (Hfrom w t Hl) as [Hl'|Hl'].
      * by rewrite lookup_empty in Hl'.
      * by destruct (first_seen_None _ w t Hrec Hfs).
Qed.

End gold_facts.

(** ** The evaluation report *)

Section report_facts.
Context `{Builtins}.

(** A report is returned when the gold file loads and no gold word is
    predicted both ways; its counts are the sizes of the confusion sets and
    its lists are those sets, sorted. *)
Lemma evaluate_OK_inv gold a p r :
  evaluate_against_gold gold a p = OK r →
  ∃ labels, _load_gold_labels gold = OK labels ∧
    let G : gset str := dom labels in
    let GC : gset str := dom (filter (λ item, item.2 = py "common") labels) in
    let PC := _load_prediction_words a ∩ G in
    let PP := _load_prediction_words p ∩ G in
    PC ∩ PP = ∅
    ∧ total_words r = size G
    ∧ total_common r = size GC
    ∧ total_proper r = size (G ∖ GC)
    ∧ predicted_common r = size PC
    ∧ predicted_proper r = size PP
    ∧ true_positive r = size (GC ∩ PC)
    ∧ true_negative r = size ((G ∖ GC) ∩ PP)
    ∧ false_positive r = size (PC ∩ (G ∖ GC))
    ∧ false_negative r = size (GC ∖ PC)
    ∧ missing_words r = _sort_words (G ∖ (PC ∪ PP))
    ∧ false_positive_words r = _sort_words (PC ∩ (G ∖ GC))
    ∧ false_negative_words r = _sort_words (GC ∖ PC)
    ∧ extra_common_predictions r = _sort_words (_load_prediction_words a ∖ G)
    ∧ extra_proper_predictions r = _sort_words (_load_prediction_words p ∖ G).
Proof.
  unfold evaluate_against_gold.
  destruct (_load_gold_labels gold) as [labels|e] eqn:Hg; [|done].
  unfold mbind, result_bind. cbv zeta.
  case_bool_decide as Hov; [done|].
  intros E. injection E as <-. exists labels. cbn.
  split; [done|]. split; [|repeat split].
  destruct (decide ((_load_prediction_words a ∩ dom labels)
                    ∩ (_load_prediction_words p ∩ dom labels) = ∅)); tauto.
Qed.


Lemma elem_of_gold_common (labels : gmap str Label) w :
  w ∈ dom (filter (λ item : str * Label, item.2 = py "common") labels)
  ↔ labels !! w = Some (py "common").
Proof.
  rewrite elem_of_dom. unfold is_Some. split.
  - intros (t & Ht). apply map_lookup_filter_Some in Ht as [Hl Heq].
    simpl in Heq. by subst t.
  - intros Hl. exists (py "common"). by apply map_lookup_filter_Some.
Qed.

Lemma gold_common_subseteq (labels : gmap str Label) :
  dom (filter (λ item : str * Label, item.2 = py "common") labels)
  ⊆ dom labels.
Proof.
  intros w Hw. apply elem_of_gold_common in Hw. apply elem_of_dom. eauto.
Qed.

(** The length of the part of a sorted word list that lies in a set. *)
Lemma length_filter_sort_words (X Y : gset str) :
  length (filter (λ w, w ∈ Y) (_sort_words X)) = size (X ∩ Y).
Proof.
  unfold _sort_words.
  rewrite <- (size_list_to_set (C:=gset str)).
  - f_equal. apply set_eq. intros w.
    rewrite elem_of_list_to_set, list_elem_of_filter, elem_of_sorted_by,
      elem_of_elements, elem_of_intersection. tauto.
  - apply NoDup_filter, NoDup_sorted_by, NoDup_elements.
Qed.

Lemma length_sort_words (X : gset str) : length (_sort_words X) = size X.
Proof. unfold _sort_words. by rewrite length_sorted_by. Qed.

End report_facts.

(** ** Claims about the confusion counts *)

Section count_claims.
Context `{Builtins}.

(** C2, as the code has it.  In every report the four confusion counts add
    up to at most the number of gold words.  A gold word missing from both
    prediction files is counted as a false negative when its label is
    common and is not counted when its label is proper, so the number of
    gold words exceeds the sum by the number of missing words less those
    labelled common; it equals the number of missing words exactly when no
    missing word is labelled common. *)
Theorem confusion_total gold a p r labels :
  evaluate_against_gold gold a p = OK r →
  _load_gold_labels gold = OK labels →
  let counted :=
    true_positive r + true_negative r + false_positive r + false_negative r in
  let missing_common :=
    filter (λ w, labels !! w = Some (py "common")) (missing_words r) in
  counted ≤ total_words r
  ∧ total_words r - counted
    = length (missing_words r) - length missing_common
  ∧ length missing_common ≤ length (missing_words r)
  ∧ (total_words r - counted = length (missing_words r)
     ↔ missing_common = []).
Proof.
  intros Hr Hg.
  destruct (evaluate_OK_inv _ _ _ _ Hr) as (labels' & Hg' & Hinv).
  rewrite Hg in Hg'. injection Hg' as <-. cbv zeta in Hinv.
  destruct Hinv as (Hov & -> & _ & _ & _ & _ & -> & -> & -> & -> & -> & _).
  cbv zeta.
  rewrite (list_filter_iff _
    (λ w, w ∈ dom (filter (λ item : str * Label, item.2 = py "common") labels)))
    by (intros w; symmetry; apply elem_of_gold_common).
  rewrite length_filter_sort_words, length_sort_words.
  destruct (confusion_sizes _ _ _ _ (gold_common_subseteq labels) Hov)
    as (H1 & H2 & H3 & H4 & H5).
  split_and!; [lia|lia|lia|].
  rewrite <- length_zero_iff_nil, length_filter_sort_words. lia.
Qed.

(** C7, as the code has it.  [TP + FN] is the number of gold words labelled
    common, [total_common], whether or not they were predicted: it is the
    number of common-labelled words among the gold words that were predicted
    plus the number of missing words labelled common.  [TP + FP] is the
    number of predicted-common words that are gold words,
    [predicted_common]. *)
Theorem confusion_margins gold a p r labels :
  evaluate_against_gold gold a p = OK r →
  _load_gold_labels gold = OK labels →
  let gold_words : gset str := dom labels in
  let common := λ w, labels !! w = Some (py "common") in
  let predicted :=
    (_load_prediction_words a ∪ _load_prediction_words p) ∩ gold_words in
  true_positive r + false_negative r = total_common r
  ∧ total_common r = size (filter common gold_words)
  ∧ true_positive r + false_negative r
    = size (filter common predicted)
      + length (filter common (missing_words r))
  ∧ true_positive r + false_positive r = predicted_common r
  ∧ predicted_common r = size (_load_prediction_words a ∩ gold_words).
Proof.
  intros Hr Hg.
  destruct (evaluate_OK_inv _ _ _ _ Hr) as (labels' & Hg' & Hinv).
  rewrite Hg in Hg'. injection Hg' as <-. cbv zeta in Hinv.
  destruct Hinv as (Hov & _ & -> & _ & -> & _ & -> & _ & -> & -> & -> & _).
  cbv zeta.
  assert (∀ X : gset str,
    filter (λ w, labels !! w = Some (py "common")) X
    = X ∩ dom (filter (λ item : str * Label, item.2 = py "common") labels))
    as Hfilter.
  { intros X. apply set_eq. intros w.
    rewrite elem_of_filter, elem_of_intersection, elem_of_gold_common. tauto. }
  rewrite (list_filter_iff _
    (λ w, w ∈ dom (filter (λ item : str * Label, item.2 = py "common") labels)))
    by (intros w; symmetry; apply elem_of_gold_common).
  rewrite length_filter_sort_words, !Hfilter.
  pose proof (gold_common_subseteq labels) as Hsub.
  destruct (confusion_sizes _ _ _ _ Hsub Hov) as (H1 & H2 & H3 & H4 & H5).
  replace (dom labels ∩ dom (filter (λ item : str * Label, item.2 = py "common")
                               labels))
    with (dom (filter (λ item : str * Label, item.2 = py "common") labels))
    by set_solver.
  split_and!; [lia|done|lia|lia|done].
Qed.

End count_claims.

(** ** Claims about the metrics *)

Section metric_claims.
Context `{Builtins}.







End metric_claims.

(** ** Claims about the report's word lists and the overlap check *)

Section order_facts.
Context `{Builtins}.

Lemma word_order_key x y : word_order x y ↔ lexico (sort_key x) (sort_key y).
Proof. reflexivity. Qed.

Lemma word_order_irrefl x : ¬ word_order x x.
Proof. rewrite word_order_key. apply (irreflexivity lexico). Qed.

Lemma word_order_trans x y z : word_order x y → word_order y z → word_order x z.
Proof. rewrite !word_order_key. apply (transitivity (R:=lexico)). Qed.

Lemma word_order_trichotomy x y : word_order x y ∨ x = y ∨ word_order y x.
Proof.
  rewrite !word_order_key.
  destruct (trichotomy lexico (sort_key x) (sort_key y)) as [?|[E|?]]; auto.
  right. left. by apply sort_key_inj.
Qed.

Lemma sort_words_ordered (X : gset str) :
  StronglySorted word_order (_sort_words X).
Proof.
  unfold _sort_words.
  exact (sorted_by_strict sort_key (elements X) sort_key_inj (NoDup_elements X)).
Qed.

Lemma sort_words_any_order (X : gset str) l :
  l ≡ₚ elements X → sorted_by sort_key l = _sort_words X.
Proof. apply sorted_by_unique, sort_key_inj. Qed.

End order_facts.

(** C9. Every word list of a report is strictly ascending in [word_order]:
    by the lower-cased word first and, between words with the same
    lower-cased form, by the literal string.  [word_order] is a strict total
    order and the sorted list does not depend on the order in which the set
    is enumerated.  It is not the batch classifier's plain order: "a" and "B"
    come out as ["a", "B"] in a report and as ["B", "a"] in a classifier
    output file. *)
Theorem report_lists_ordered `{Builtins} gold a p r :
  evaluate_against_gold gold a p = OK r →
  Forall (StronglySorted word_order)
    [missing_words r; false_positive_words r; false_negative_words r;
     extra_common_predictions r; extra_proper_predictions r]
  ∧ ((∀ x, ¬ word_order x x)
     ∧ (∀ x y z, word_order x y → word_order y z → word_order x z)
     ∧ (∀ x y, word_order x y ∨ x = y ∨ word_order y x))
  ∧ (∀ (X : gset str) l, l ≡ₚ elements X → sorted_by sort_key l = _sort_words X)
  ∧ (@_sort_words ascii_builtins {[py "B"; py "a"]} = [py "a"; py "B"]
     ∧ sorted (dict_fromkeys [py "a"; py "B"]) = [py "B"; py "a"]).
Proof.
  intros Hr.
  destruct (evaluate_OK_inv _ _ _ _ Hr) as (labels & _ & Hinv).
  cbv zeta in Hinv.
  destruct Hinv as (_ & _ & _ & _ & _ & _ & _ & _ & _ & _
                    & -> & -> & -> & -> & ->).
  split_and!.
  - repeat constructor; apply sort_words_ordered.
  - apply word_order_irrefl.
  - apply word_order_trans.
  - apply word_order_trichotomy.
  - apply sort_words_any_order.
  - by vm_compute.
  - by vm_compute.
Qed.

(** C4, as the code has it.  When the gold file loads, the words checked
    are the gold words that are in both prediction files.  If there is one,
    [evaluate_against_gold] fails with the consistency error, which carries
    their number and, as preview, the first five of them in sorted order
    joined by ", "; if there is none, it returns a report, whatever words
    outside the gold file the two prediction files share. *)
Theorem overlap_detected `{Builtins} gold a p labels :
  _load_gold_labels gold = OK labels →
  let overlap : gset str :=
    (_load_prediction_words a ∩ dom labels)
    ∩ (_load_prediction_words p ∩ dom labels) in
  let shown := take 5 (sorted (elements overlap)) in
  let overlap_preview := join (py ", ") shown in
  (∀ w, w ∈ overlap
        ↔ w ∈ dom labels ∧ w ∈ _load_prediction_words a
          ∧ w ∈ _load_prediction_words p)
  ∧ ((∃ w, w ∈ overlap) →
     evaluate_against_gold gold a p
     = Raise (OverlappingPredictions (size overlap) overlap_preview)
     ∧ 1 ≤ size overlap)
  ∧ ((∀ w, w ∉ overlap) → ∃ r, evaluate_against_gold gold a p = OK r)
  ∧ (length shown = size overlap `min` 5 ∧ ∀ w, w ∈ shown → w ∈ overlap)
  ∧ message (OverlappingPredictions (size overlap) overlap_preview)
    = py "Found " ++ str_of_int (Z.of_nat (size overlap))
      ++ py " words present in both prediction files; examples: "
      ++ overlap_preview ++ py ".".
Proof.
  intros Hg overlap shown overlap_preview.
  split_and!.
  - intros w. unfold overlap. set_solver.
  - intros [w Hin]. split.
    + unfold evaluate_against_gold. rewrite Hg.
      unfold mbind, result_bind. cbv zeta. fold overlap.
      rewrite bool_decide_eq_true_2; [done|].
      intros E. rewrite E in Hin. set_solver.
    + destruct (decide (size overlap = 0)) as [E|E]; [|lia].
      apply size_empty_iff in E. set_solver.
  - intros Hnone. unfold evaluate_against_gold. rewrite Hg.
    unfold mbind, result_bind. cbv zeta. fold overlap.
    rewrite bool_decide_eq_false_2; [eauto|].
    intros Hne. apply Hne. apply set_eq. intros w. split; [|set_solver].
    intros Hin. by destruct (Hnone w).
  - unfold shown, sorted. rewrite length_take, length_sorted_by.
    apply Nat.min_comm.
  - intros w (i & Hin%list_elem_of_lookup_2 & _)%elem_of_take.
    unfold sorted in Hin. rewrite elem_of_sorted_by in Hin.
    by apply elem_of_elements.
  - done.
Qed.

(** ** Further properties of the code *)

Section further.
Context `{Builtins} `{Wordfreq} `{Package}.

(** Determinism of the word scorer: a second call on the same input, with
    the caches the first call left, returns the same result and leaves the
    caches as they are. *)
Theorem classify_word_deterministic (raw : str) (c : Cache) :
  classify_word raw (classify_word raw c).2 = classify_word raw c.
Proof.
  destruct (decide (strip raw = [])) as [E|E].
  - by rewrite !(classify_word_empty raw _ E).
  - rewrite !(classify_word_scored raw _ E). cbn [snd].
    by rewrite lexicon_of_loaded, loaded_idemp.
Qed.

(** The lexicon store loads each set once: after [classify_words] the four
    caches are filled, a later call of any loader returns the cached set
    and changes nothing, and caches that held nothing but package data hold
    the package data.  The package lexicon is the set of trimmed non-blank
    lines of each file with its lower-cased image; an absent proper file
    gives empty sets. *)
Theorem lexicon_loaded_once (words : list str) (c : Cache) :
  let c' := (classify_words words c).2 in
  c' = loaded c
  ∧ _load_common_words c' = (commons (lexicon_of c), c')
  ∧ _load_common_lower c' = (commons_lower (lexicon_of c), c')
  ∧ _load_proper_words c' = (propers (lexicon_of c), c')
  ∧ _load_proper_lower c' = (propers_lower (lexicon_of c), c')
  ∧ (cache_ok c → cache_ok c' ∧ lexicon_of c = package_lexicon)
  ∧ commons package_lexicon = stripped_set common_txt
  ∧ commons_lower package_lexicon
    = set_map str_lower (stripped_set common_txt)
  ∧ (proper_txt = None →
     propers package_lexicon = ∅ ∧ propers_lower package_lexicon = ∅).
Proof.
  cbv zeta. rewrite classify_words_filter. cbn [snd].
  split_and!; try reflexivity.
  - intros Hc. split; [by apply cache_ok_loaded|by apply cache_ok_lexicon].
  - intros E. unfold package_lexicon, lexicon_of. cbn. rewrite E. cbn.
    split; [done|]. apply set_map_empty.
Qed.

(** The labels [_normalise_truth] accepts: exactly the five spellings, after
    trimming and lower-casing; every other label is reported as it was
    given. *)
Theorem normalise_truth_table (raw : str) :
  let lowered := str_lower (strip raw) in
  (_normalise_truth raw = OK (py "common")
   ↔ lowered = py "common" ∨ lowered = py "ambiguous"
     ∨ lowered = py "ambiguous noun")
  ∧ (_normalise_truth raw = OK (py "proper")
     ↔ lowered = py "proper" ∨ lowered = py "proper noun")
  ∧ (_normalise_truth raw = Raise (UnrecognisedLabel raw)
     ↔ lowered ∉ [py "common"; py "ambiguous"; py "ambiguous noun";
                  py "proper"; py "proper noun"])
  ∧ ∀ t, _normalise_truth raw = OK t → t = py "common" ∨ t = py "proper".
Proof.
  cbv zeta. unfold _normalise_truth.
  set (lowered := str_lower (strip raw)).
  assert (lowered ∈ [py "common"; py "ambiguous"; py "ambiguous noun";
                     py "proper"; py "proper noun"]
          ↔ lowered ∈ [py "common"; py "ambiguous"; py "ambiguous noun"]
            ∨ lowered ∈ [py "proper"; py "proper noun"]) as ->.
  { rewrite !elem_of_cons, !elem_of_nil. tauto. }
  set (commons3 := [py "common"; py "ambiguous"; py "ambiguous noun"]).
  set (propers2 := [py "proper"; py "proper noun"]).
  assert (lowered ∈ commons3
          ↔ lowered = py "common" ∨ lowered = py "ambiguous"
            ∨ lowered = py "ambiguous noun") as Hc.
  { unfold commons3. rewrite !elem_of_cons, elem_of_nil. tauto. }
  assert (lowered ∈ propers2
          ↔ lowered = py "proper" ∨ lowered = py "proper noun") as Hp.
  { unfold propers2. rewrite !elem_of_cons, elem_of_nil. tauto. }
  rewrite <- Hc, <- Hp.
  destruct (decide (lowered ∈ commons3)) as [H3|H3].
  - rewrite (bool_decide_eq_true_2 _ H3).
    split_and!; [tauto| |split; [done|tauto]|].
    + split; [done|]. intros H2. apply Hc in H3. apply Hp in H2.
      destruct H3 as [E|[E|E]], H2 as [E'|E']; rewrite E in E'; discriminate.
    + intros t Ht. injection Ht as <-. by left.
  - rewrite (bool_decide_eq_false_2 _ H3).
    destruct (decide (lowered ∈ propers2)) as [H2|H2].
    + rewrite (bool_decide_eq_true_2 _ H2).
      split_and!; [split; [done|tauto]|tauto|split; [done|tauto]|].
      intros t Ht. injection Ht as <-. by right.
    + rewrite (bool_decide_eq_false_2 _ H2).
      split_and!; [split; [done|tauto]|split; [done|tauto]|tauto|done].
Qed.

(** A prediction file is read as the set of its trimmed non-blank lines:
    repeated lines and blank lines leave no trace. *)
Theorem prediction_words_spec (handle : list str) (w : str) :
  (w ∈ _load_prediction_words handle
   ↔ ∃ line, line ∈ handle ∧ strip line = w ∧ w ≠ [])
  ∧ _load_prediction_words (handle ++ handle) = _load_prediction_words handle
  ∧ _load_prediction_words ([] :: handle) = _load_prediction_words handle.
Proof.
  split_and!.
  - apply elem_of_stripped_set.
  - apply set_eq. intros v. unfold _load_prediction_words.
    rewrite !elem_of_stripped_set. setoid_rewrite elem_of_app. naive_solver.
  - apply set_eq. intros v. unfold _load_prediction_words.
    rewrite !elem_of_stripped_set. setoid_rewrite elem_of_cons.
    split; [|naive_solver].
    intros (line & [-> | Hin] & Hs & Hne); [|eauto].
    by destruct Hne.
Qed.

(** An error of the gold file is the error of the evaluation, and a gold
    file without the two columns is refused before any row is read. *)
Theorem gold_errors_propagate (gold : GoldFile) (a p : list str) :
  (∀ e, _load_gold_labels gold = Raise e →
        evaluate_against_gold gold a p = Raise e)
  ∧ (fieldnames gold = None → _load_gold_labels gold = Raise MissingColumns)
  ∧ (∀ names, fieldnames gold = Some names →
       (py "Word" ∉ names ∨ py "Truth" ∉ names) →
       _load_gold_labels gold = Raise MissingColumns).
Proof.
  split_and!.
  - intros e E. unfold evaluate_against_gold. by rewrite E.
  - intros E. unfold _load_gold_labels. by rewrite E.
  - intros names E Hmiss. unfold _load_gold_labels. rewrite E.
    rewrite bool_decide_eq_true_2; [done|].
    intros Hempty.
    assert (py "Word" ∈ (list_to_set names : gset str)
            ∧ py "Truth" ∈ (list_to_set names : gset str)) as [Hw Ht].
    { split.
      - destruct (decide (py "Word" ∈ (list_to_set names : gset str)));
          [done|]. set_solver.
      - destruct (decide (py "Truth" ∈ (list_to_set names : gset str)));
          [done|]. set_solver. }
    rewrite elem_of_list_to_set in Hw, Ht. tauto.
Qed.

(** The informational lists of a report: the missing words are the gold
    words in neither prediction file, the extra predictions of a file are
    its words outside the gold file, and the false positives and negatives
    are the gold words predicted against their label (a missing common word
    being a false negative). *)
Theorem report_lists_content gold a p r labels :
  evaluate_against_gold gold a p = OK r →
  _load_gold_labels gold = OK labels →
  let A := _load_prediction_words a in
  let P := _load_prediction_words p in
  ∀ w,
    (w ∈ missing_words r ↔ w ∈ dom labels ∧ (w ∉ A) ∧ (w ∉ P))
    ∧ (w ∈ extra_common_predictions r ↔ w ∈ A ∧ w ∉ dom labels)
    ∧ (w ∈ extra_proper_predictions r ↔ w ∈ P ∧ w ∉ dom labels)
    ∧ (w ∈ false_positive_words r
       ↔ w ∈ A ∧ ∃ t, labels !! w = Some t ∧ t ≠ py "common")
    ∧ (w ∈ false_negative_words r
       ↔ labels !! w = Some (py "common") ∧ w ∉ A).
Proof.
  intros Hr Hg.
  destruct (evaluate_OK_inv _ _ _ _ Hr) as (labels' & Hg' & Hinv).
  rewrite Hg in Hg'. injection Hg' as <-. cbv zeta in Hinv.
  destruct Hinv as (_ & _ & _ & _ & _ & _ & _ & _ & _ & _
                    & -> & -> & -> & -> & ->).
  cbv zeta. intros w. unfold _sort_words.
  rewrite !elem_of_sorted_by, !elem_of_elements.
  rewrite !elem_of_difference, !elem_of_intersection, !elem_of_union,
    !elem_of_difference, !elem_of_intersection, !elem_of_gold_common,
    !elem_of_dom.
  unfold is_Some. split_and!; naive_solver.
Qed.

End further.

(** * The code on concrete inputs

    The ASCII case tables, no wordfreq provider, and the sample lexicon. *)

Section runs.
#[local] Existing Instances ascii_builtins wordfreq_off sample_package.

(** C1, counterexample: on ["dog", "bank", "dog"] [classify_words] returns
    the three words as given, "dog" twice and "dog" before "bank". *)
Lemma classify_words_keeps_duplicates :
  let out :=
    (classify_words [py "dog"; py "bank"; py "dog"] fresh_cache).1 in
  out = ([py "dog"; py "bank"; py "dog"], [])
  ∧ ¬ NoDup out.1
  ∧ ¬ Sorted py_le out.1.
Proof.
  cbv zeta. split_and!.
  - by vm_compute.
  - apply (bool_decide_unpack _). by vm_compute.
  - apply (bool_decide_unpack _). by vm_compute.
Qed.

(** The scorer on " dog ": a common word of three letters, no frequency
    provider: 5.0 + 0.9 * (0.0 - 4.0) - 0.04 * (3 - 7) in binary64. *)
Example classify_word_run :
  (classify_word (py " dog ") fresh_cache).1
  = {| word := py "dog";
       label := py "likely ambiguous";
       score := 1.5599999999999998;
       reason := py "zipf=n/a;len" ++ [916%N] ++ py "=-4" |}.
Proof. by vm_compute. Qed.

(** The two files written for five input lines, one blank and one
    repeated. *)
Example classify_file_run :
  (classify_file [py "dog"; py "bank"; py " dog "; py "Rome"; py ""]
     fresh_cache).1
  = ([py "bank"; py "dog"], [py "Rome"]).
Proof. by vm_compute. Qed.

(** C3, witness: "march" is in the sample lexicon both as a common and as
    a proper word; it goes to the proper list. *)
Lemma proper_lexicon_override_witness :
  cache_ok fresh_cache
  ∧ py "march" ∈ propers package_lexicon
  ∧ py "march" ∈ commons package_lexicon
  ∧ (classify_words [py "march"] fresh_cache).1 = ([], [py "march"]).
Proof.
  assert (py "march" ∈ propers package_lexicon) as Hw.
  { apply (bool_decide_unpack _). by vm_compute. }
  split_and!; [apply cache_ok_fresh|exact Hw| |].
  - apply (bool_decide_unpack _). by vm_compute.
  - exact (proj1 (proper_lexicon_override (py "march") fresh_cache
                    cache_ok_fresh Hw)).
Defined.

(** C8, witness: a blank input and the word "dog". *)
Lemma classify_word_decision_witness :
  classify_word (py "  ") fresh_cache
  = (Build_ClassificationResult [] (py "unknown") 0.0 (py "empty"), fresh_cache)
  ∧ label (classify_word (py " dog ") fresh_cache).1 = py "likely ambiguous".
Proof.
  split.
  - apply (proj1 (classify_word_decision (py "  ") fresh_cache)).
    by vm_compute.
  - assert (strip (py " dog ") ≠ []) as Hne by (by vm_compute).
    destruct (proj2 (classify_word_decision (py " dog ") fresh_cache) Hne)
      as (_ & _ & Hamb & _).
    apply Hamb. split; by vm_compute.
Defined.

(** C2, counterexample: the gold word "bank", labelled common, is in neither
    prediction file.  It is a missing word and it is counted as a false
    negative, so the four counts add up to all the gold words. *)
Lemma missing_common_not_in_gap :
  ∃ r, evaluate_against_gold (gold_file [(py "bank", py "Common")]) [] [] = OK r
    ∧ total_words r
      - (true_positive r + true_negative r + false_positive r
         + false_negative r) = 0
    ∧ length (missing_words r) = 1.
Proof. eexists. split; [by vm_compute|]. split; reflexivity. Qed.

(** C2, witness: of the missing words of [gold_four], "Rome" is proper and
    opens the gap of one. *)
Lemma confusion_total_witness :
  ∃ r,
    evaluate_against_gold gold_four [py "bank"; py "Paris"] [py "dog"] = OK r
    ∧ _load_gold_labels gold_four = OK labels_four
    ∧ true_positive r + true_negative r + false_positive r + false_negative r
      ≤ total_words r
    ∧ total_words r
      - (true_positive r + true_negative r + false_positive r
         + false_negative r)
      = length (missing_words r)
        - length (filter (λ w, labels_four !! w = Some (py "common"))
                    (missing_words r)).
Proof.
  eexists.
  assert (evaluate_against_gold gold_four [py "bank"; py "Paris"] [py "dog"]
          = OK _) as Hr by (by vm_compute).
  assert (_load_gold_labels gold_four = OK labels_four) as Hg
    by (by vm_compute).
  split; [exact Hr|]. split; [exact Hg|].
  destruct (confusion_total _ _ _ _ _ Hr Hg) as (H1 & H2 & _).
  split; [exact H1|exact H2].
Defined.

(** C7, counterexample: with no prediction at all no gold word is
    predicted, yet [TP + FN] is 1: the missing common word "bank". *)
Lemma missing_common_counted_false_negative :
  let labels : gmap str str := {[py "bank" := py "common"]} in
  ∃ r,
    evaluate_against_gold (gold_file [(py "bank", py "Common")]) [] [] = OK r
    ∧ _load_gold_labels (gold_file [(py "bank", py "Common")]) = OK labels
    ∧ size (filter (λ w, labels !! w = Some (py "common"))
              ((_load_prediction_words [] ∪ _load_prediction_words [])
               ∩ dom labels)) = 0
    ∧ true_positive r + false_negative r = 1.
Proof.
  cbv zeta. eexists. split; [by vm_compute|]. split; [by vm_compute|].
  split; by vm_compute.
Qed.

(** C7, witness. *)
Lemma confusion_margins_witness :
  ∃ r,
    evaluate_against_gold gold_four [py "bank"; py "Paris"] [py "dog"] = OK r
    ∧ _load_gold_labels gold_four = OK labels_four
    ∧ true_positive r + false_negative r = total_common r
    ∧ true_positive r + false_positive r = predicted_common r.
Proof.
  eexists.
  assert (evaluate_against_gold gold_four [py "bank"; py "Paris"] [py "dog"]
          = OK _) as Hr by (by vm_compute).
  assert (_load_gold_labels gold_four = OK labels_four) as Hg
    by (by vm_compute).
  split; [exact Hr|]. split; [exact Hg|].
  destruct (confusion_margins _ _ _ _ _ Hr Hg) as (H1 & _ & _ & H4 & _).
  split; [exact H1|exact H4].
Defined.

(** C4, counterexample: "bank" is in both prediction files but not in the
    gold file; the evaluation succeeds and lists it as an extra prediction
    of each file. *)
Lemma overlap_outside_gold_accepted :
  py "bank" ∈ _load_prediction_words [py "bank"]
  ∧ ∃ r, evaluate_against_gold (gold_file [(py "dog", py "Common")])
           [py "bank"] [py "bank"] = OK r
      ∧ extra_common_predictions r = [py "bank"]
      ∧ extra_proper_predictions r = [py "bank"].
Proof.
  split; [apply (bool_decide_unpack _); by vm_compute|].
  eexists. split; [by vm_compute|]. split; reflexivity.
Qed.

(** C4, witness: "bank" is a gold word and in both prediction files. *)
Lemma overlap_detected_witness :
  let labels : gmap str str := {[py "bank" := py "common"]} in
  _load_gold_labels (gold_file [(py "bank", py "Common")]) = OK labels
  ∧ py "bank" ∈ dom labels
  ∧ py "bank" ∈ _load_prediction_words [py "bank"; py "dog"]
  ∧ py "bank" ∈ _load_prediction_words [py "cat"; py " bank "]
  ∧ evaluate_against_gold (gold_file [(py "bank", py "Common")])
      [py "bank"; py "dog"] [py "cat"; py " bank "]
    = Raise (OverlappingPredictions 1 (py "bank")).
Proof.
  cbv zeta.
  assert (_load_gold_labels (gold_file [(py "bank", py "Common")])
          = OK {[py "bank" := py "common"]}) as Hg by (by vm_compute).
  assert (py "bank" ∈ dom ({[py "bank" := py "common"]} : gmap str str))
    as Hw.
  { apply (bool_decide_unpack _). by vm_compute. }
  assert (py "bank" ∈ _load_prediction_words [py "bank"; py "dog"]) as Ha.
  { apply (bool_decide_unpack _). by vm_compute. }
  assert (py "bank" ∈ _load_prediction_words [py "cat"; py " bank "]) as Hp.
  { apply (bool_decide_unpack _). by vm_compute. }
  split; [exact Hg|]. split; [exact Hw|]. split; [exact Ha|].
  split; [exact Hp|].
  destruct (overlap_detected _ [py "bank"; py "dog"] [py "cat"; py " bank "]
              _ Hg) as (Hmem & Hraise & _).
  destruct Hraise as [-> _].
  { exists (py "bank"). by apply Hmem. }
  by vm_compute.
Defined.


(** C6, counterexample: "Paris" appears as Common and as Proper, but the
    first row carries the label "maybe": the error is the unrecognised
    label, not the conflict. *)
Lemma unrecognised_label_reported_first :
  let gold :=
    gold_file [(py "x", py "maybe"); (py "Paris", py "Common");
               (py "Paris", py "Proper")] in
  labelled (rows gold) (py "Paris") (py "common")
  ∧ labelled (rows gold) (py "Paris") (py "proper")
  ∧ _load_gold_labels gold = Raise (UnrecognisedLabel (py "maybe")).
Proof.
  cbv zeta. split_and!.
  - eexists. split; [apply list_elem_of_further, list_elem_of_here|].
    split_and!; by vm_compute.
  - eexists. split.
    { apply list_elem_of_further, list_elem_of_further, list_elem_of_here. }
    split_and!; by vm_compute.
  - by vm_compute.
Qed.

(** C6, witness: "Paris" once as Common and once as Proper, then a row
    with an unrecognised label. *)
Lemma gold_conflict_detection_witness :
  let gold :=
    gold_file [(py "Paris", py "Common"); (py "Paris", py "Proper");
               (py "x", py "maybe")] in
  fieldnames gold = Some [py "Word"; py "Truth"]
  ∧ py "Word" ∈ [py "Word"; py "Truth"]
  ∧ py "Truth" ∈ [py "Word"; py "Truth"]
  ∧ recognised (take 2 (rows gold))
  ∧ conflicting (take 2 (rows gold))
  ∧ ∃ w e t, _load_gold_labels gold = Raise (ConflictingLabels w e t).
Proof.
  cbv zeta.
  set (gold := gold_file [(py "Paris", py "Common"); (py "Paris", py "Proper");
                          (py "x", py "maybe")]).
  assert (recognised (take 2 (rows gold))) as Hrec.
  { repeat constructor; intros _; eexists; by vm_compute. }
  assert (conflicting (take 2 (rows gold))) as Hc.
  { exists (py "Paris"), (py "common"), (py "proper"). split_and!.
    - eexists. split; [apply list_elem_of_here|]. split_and!; by vm_compute.
    - eexists. split; [apply list_elem_of_further, list_elem_of_here|].
      split_and!; by vm_compute.
    - by vm_compute. }
  pose proof (list_elem_of_here (py "Word") [py "Truth"]) as Hw.
  pose proof (list_elem_of_further (py "Truth") (py "Word") [py "Truth"]
                (list_elem_of_here _ _)) as Ht.
  split; [reflexivity|]. split; [exact Hw|]. split; [exact Ht|].
  split; [exact Hrec|]. split; [exact Hc|].
  apply (proj1 (gold_conflict_detection gold [py "Word"; py "Truth"]
                  eq_refl Hw Ht)).
  exists 2. by split.
Defined.

(** The error for that file, and a file whose repeated rows agree. *)
Example gold_conflict_run :
  _load_gold_labels
    (gold_file [(py "Paris", py "Common"); (py "Paris", py "Proper")])
  = Raise (ConflictingLabels (py "Paris") (py "common") (py "proper")).
Proof. by vm_compute. Qed.

Example gold_agreeing_run :
  (λ labels, labels !! py "Paris") <$>
    match _load_gold_labels
            (gold_file [(py "Paris", py "Proper"); (py "Paris", py " proper noun ")])
    with OK labels => Some labels | Raise _ => None end
  = Some (Some (py "proper")).
Proof. by vm_compute. Qed.

(** C9, witness: four gold words, none predicted, come out with each
    capitalised word before its lower-case twin. *)
Lemma report_lists_ordered_witness :
  ∃ r,
    evaluate_against_gold
      (gold_file [(py "banana", py "Common"); (py "Apple", py "Proper");
                  (py "apple", py "Common"); (py "Banana", py "Proper")])
      [] [] = OK r
    ∧ missing_words r = [py "Apple"; py "apple"; py "Banana"; py "banana"]
    ∧ Forall (StronglySorted word_order)
        [missing_words r; false_positive_words r; false_negative_words r;
         extra_common_predictions r; extra_proper_predictions r].
Proof.
  eexists.
  assert (evaluate_against_gold
      (gold_file [(py "banana", py "Common"); (py "Apple", py "Proper");
                  (py "apple", py "Common"); (py "Banana", py "Proper")])
      [] [] = OK _) as Hr by (by vm_compute).
  split; [exact Hr|]. split; [reflexivity|].
  exact (proj1 (report_lists_ordered _ _ _ _ Hr)).
Defined.

(** The first scenario of the evaluator: every gold word predicted with its
    label. *)
Example scenario_all_correct :
  ∃ r,
    evaluate_against_gold
      (gold_file [(py "dog", py "common"); (py "Paris", py "proper")])
      [py "dog"] [py "Paris"] = OK r
    ∧ true_positive r = 1 ∧ true_negative r = 1
    ∧ false_positive r = 0 ∧ false_negative r = 0
    ∧ (accuracy r == 1)%Q
    ∧ from_option (λ x, x == 1)%Q False (precision r)
    ∧ from_option (λ x, x == 1)%Q False (recall r)
    ∧ from_option (λ x, x == 1)%Q False (f1 r)
    ∧ missing_words r = []
    ∧ extra_common_predictions r = []
    ∧ extra_proper_predictions r = [].
Proof. eexists. split; [by vm_compute|]. split_and!; by vm_compute. Qed.

(** The second scenario: one common gold word and no prediction. *)
Example scenario_nothing_predicted :
  ∃ r,
    evaluate_against_gold (gold_file [(py "bank", py "common")]) [] [] = OK r
    ∧ missing_words r = [py "bank"]
    ∧ true_positive r = 0 ∧ false_negative r = 1
    ∧ (accuracy r == 0)%Q
    ∧ precision r = None
    ∧ from_option (λ x, x == 0)%Q False (recall r)
    ∧ f1 r = None.
Proof. eexists. split; [by vm_compute|]. split_and!; by vm_compute. Qed.

(** The word lists of the [gold_four] run. *)
Lemma report_lists_content_witness :
  ∃ r,
    evaluate_against_gold gold_four [py "bank"; py "Paris"; py "Oslo"]
      [py "dog"] = OK r
    ∧ _load_gold_labels gold_four = OK labels_four
    ∧ (py "Rome" ∈ missing_words r
       ↔ py "Rome" ∈ dom labels_four
         ∧ (py "Rome" ∉ _load_prediction_words [py "bank"; py "Paris"; py "Oslo"])
         ∧ (py "Rome" ∉ _load_prediction_words [py "dog"]))
    ∧ missing_words r = [py "Rome"]
    ∧ extra_common_predictions r = [py "Oslo"]
    ∧ false_positive_words r = [py "Paris"]
    ∧ false_negative_words r = [py "dog"].
Proof.
  eexists.
  assert (evaluate_against_gold gold_four [py "bank"; py "Paris"; py "Oslo"]
            [py "dog"] = OK _) as Hr by (by vm_compute).
  assert (_load_gold_labels gold_four = OK labels_four) as Hg
    by (by vm_compute).
  split; [exact Hr|]. split; [exact Hg|].
  split; [exact (proj1 (report_lists_content _ _ _ _ _ Hr Hg (py "Rome")))|].
  split_and!; reflexivity.
Defined.

End runs.
